(** * Transform registry of [scripts/format/transforms.py]

    A shallow embedding of the payload-transform registry, of the standard
    library routines its transforms call, and of the facade
    [transform_payloads] of [scripts/changing_the_format.py], followed by the
    properties of the registry that the specification states.

    Conventions.
    - A Python [str] is a list of code points ([Z], 0 .. 0x10FFFF, lone
      surrogates included: Python admits them, and [json.load] produces them
      from an escape such as [\ud800]).
    - A Python [bytes] is a list of byte values ([Z], 0 .. 255).
    - A call that may raise returns a [result]; [try ... except Exception]
      is [try_except].
    - The dictionary [TRANSFORMS] is an association list in insertion order,
      as a Python [dict] is. *)

From Stdlib Require Import ZArith List Bool String Ascii Lia.
From Stdlib Require Import Sorting.Sorted Sorting.Permutation.
Import ListNotations.
Local Open Scope Z_scope.

(** ** Python values, exceptions *)

Module Py.

Definition str := list Z.
Definition bytes := list Z.

(** The exception classes that the modelled code can raise; all of them are
    subclasses of [Exception]. *)
Inductive exn : Type :=
| UnicodeEncodeError
| UnicodeDecodeError
| LookupError
| KeyError
| IndexError
| ValueError (msg : str)
| OtherError.

Inductive result (A : Type) : Type :=
| Ok (a : A)
| Raise (e : exn).
Arguments Ok {A} a.
Arguments Raise {A} e.

Definition bind {A B} (m : result A) (k : A -> result B) : result B :=
  match m with
  | Ok a => k a
  | Raise e => Raise e
  end.

(** [try: body  except Exception: handler] *)
Definition try_except {A} (body : result A) (handler : A) : result A :=
  match body with
  | Ok a => Ok a
  | Raise _ => Ok handler
  end.

Definition raises {A} (m : result A) : bool :=
  match m with Ok _ => false | Raise _ => true end.

(** A string literal of the source, as a list of code points. *)
Definition lit (s : string) : str :=
  map (fun a => Z.of_N (N_of_ascii a)) (list_ascii_of_string s).

Definition ord (a : ascii) : Z := Z.of_N (N_of_ascii a).

Fixpoint str_eqb (a b : str) : bool :=
  match a, b with
  | [], [] => true
  | x :: a', y :: b' => (x =? y) && str_eqb a' b'
  | _, _ => false
  end.

(** [a < b] on strings: code point by code point, a proper prefix first. *)
Fixpoint str_ltb (a b : str) : bool :=
  match a, b with
  | _, [] => false
  | [], _ :: _ => true
  | x :: a', y :: b' => (x <? y) || ((x =? y) && str_ltb a' b')
  end.

Definition str_leb (a b : str) : bool := negb (str_ltb b a).

(** [c in s] for a one-character [c]. *)
Definition contains (c : Z) (s : str) : bool := existsb (Z.eqb c) s.

(** [sep.join(parts)] *)
Fixpoint join (sep : str) (parts : list str) : str :=
  match parts with
  | [] => []
  | [p] => p
  | p :: rest => p ++ sep ++ join sep rest
  end.

(** [s.replace(old, new)] for a one-character [old]. *)
Definition replace (old : Z) (new : str) (s : str) : str :=
  flat_map (fun c => if c =? old then new else [c]) s.

(** [s.rstrip(c)] for a one-character [c]. *)
Fixpoint rstrip (c : Z) (s : str) : str :=
  match s with
  | [] => []
  | x :: s' =>
      match rstrip c s' with
      | [] => if x =? c then [] else [x]
      | r => x :: r
      end
  end.

(** [s.ljust(width, fill)] *)
Definition ljust (width : nat) (fill : Z) (s : str) : str :=
  s ++ repeat fill (width - List.length s)%nat.

(** [s[i:j]] for [0 <= i]. *)
Definition slice (i j : nat) (s : str) : str := firstn (j - i) (skipn i s).

(** [s.upper()] and [s.lower()] on the ASCII letters; the transforms apply
    them to ASCII text only (the output of [hexlify] and of [quote]). *)
Definition upper (s : str) : str :=
  map (fun c => if (97 <=? c) && (c <=? 122) then c - 32 else c) s.
Definition lower (s : str) : str :=
  map (fun c => if (65 <=? c) && (c <=? 90) then c + 32 else c) s.

(** Digits of [n] in base [base], most significant first, at least [width]
    of them: [format(n, '0{width}x')], [str(n)]. [upcase] selects [X]. *)
Definition digit_char (upcase : bool) (d : Z) : Z :=
  if d <? 10 then 48 + d else (if upcase then 55 else 87) + d.

Fixpoint digits_aux (fuel : nat) (base n : Z) (acc : list Z) : list Z :=
  match fuel with
  | O => acc
  | S fuel' =>
      if n <? base then n :: acc
      else digits_aux fuel' base (n / base) (n mod base :: acc)
  end.

Definition digits (base n : Z) : list Z :=
  digits_aux (S (Z.to_nat (Z.log2 n))) base n [].

Definition format_int (base : Z) (upcase : bool) (width : nat) (n : Z) : str :=
  let ds := map (digit_char upcase) (digits base n) in
  repeat 48 (width - List.length ds)%nat ++ ds.

Definition hex02 (b : Z) : str := format_int 16 false 2 b.   (* {:02x} *)
Definition HEX02 (b : Z) : str := format_int 16 true 2 b.    (* %02X   *)
Definition str_of_int (n : Z) : str := format_int 10 false 1 n.

(** *** Codecs: [str.encode] and [bytes.decode] *)

Inductive errors := strict | replace_errors.

Definition is_surrogate (c : Z) : bool := (0xD800 <=? c) && (c <=? 0xDFFF).

(** A code point that UTF-8 and UTF-16 can encode. *)
Definition is_scalar (c : Z) : bool :=
  (0 <=? c) && (c <=? 0x10FFFF) && negb (is_surrogate c).

Definition utf8_char (c : Z) : bytes :=
  if c <? 0x80 then [c]
  else if c <? 0x800 then [0xC0 + c / 64; 0x80 + c mod 64]
  else if c <? 0x10000 then
    [0xE0 + c / 4096; 0x80 + (c / 64) mod 64; 0x80 + c mod 64]
  else
    [0xF0 + c / 262144; 0x80 + (c / 4096) mod 64;
     0x80 + (c / 64) mod 64; 0x80 + c mod 64].

(** One character through a codec whose error handler is [e]: the character
    is replaced by [?] or the call raises. *)
Definition unencodable (e : errors) (subst : bytes) : result bytes :=
  match e with
  | strict => Raise UnicodeEncodeError
  | replace_errors => Ok subst
  end.

Fixpoint encode_with (enc1 : Z -> option bytes) (e : errors) (subst : bytes)
    (s : str) : result bytes :=
  match s with
  | [] => Ok []
  | c :: s' =>
      bind (match enc1 c with
            | Some b => Ok b
            | None => unencodable e subst
            end)
        (fun b => bind (encode_with enc1 e subst s') (fun r => Ok (b ++ r)))
  end.

Definition utf8_1 (c : Z) : option bytes :=
  if is_surrogate c then None else Some (utf8_char c).

Definition latin1_1 (c : Z) : option bytes :=
  if c <? 256 then Some [c] else None.

Definition ascii_1 (c : Z) : option bytes :=
  if c <? 128 then Some [c] else None.

(** Single-byte code pages: [table] lists the code points of the bytes
    0x80 .. 0xFF, with U+FFFE where the byte is undefined (as the decoding
    tables of [encodings/cp1251.py] and [encodings/cp1252.py] do); the
    encoder maps a code point back to the byte that decodes to it. *)
Fixpoint index_of (c : Z) (table : list Z) (i : Z) : option Z :=
  match table with
  | [] => None
  | x :: t => if x =? c then Some i else index_of c t (i + 1)
  end.

Definition charmap_1 (table : list Z) (c : Z) : option bytes :=
  if c <? 0x80 then Some [c]
  else if c =? 0xFFFE then None
  else match index_of c table 0x80 with
       | Some b => Some [b]
       | None => None
       end.

Definition cp1251_table : list Z :=
  [0x0402; 0x0403; 0x201A; 0x0453; 0x201E; 0x2026; 0x2020; 0x2021;
   0x20AC; 0x2030; 0x0409; 0x2039; 0x040A; 0x040C; 0x040B; 0x040F;
   0x0452; 0x2018; 0x2019; 0x201C; 0x201D; 0x2022; 0x2013; 0x2014;
   0xFFFE; 0x2122; 0x0459; 0x203A; 0x045A; 0x045C; 0x045B; 0x045F;
   0x00A0; 0x040E; 0x045E; 0x0408; 0x00A4; 0x0490; 0x00A6; 0x00A7;
   0x0401; 0x00A9; 0x0404; 0x00AB; 0x00AC; 0x00AD; 0x00AE; 0x0407;
   0x00B0; 0x00B1; 0x0406; 0x0456; 0x0491; 0x00B5; 0x00B6; 0x00B7;
   0x0451; 0x2116; 0x0454; 0x00BB; 0x0458; 0x0405; 0x0455; 0x0457]
  ++ map (fun i => 0x0410 + Z.of_nat i) (seq 0 64).

Definition cp1252_table : list Z :=
  [0x20AC; 0xFFFE; 0x201A; 0x0192; 0x201E; 0x2026; 0x2020; 0x2021;
   0x02C6; 0x2030; 0x0160; 0x2039; 0x0152; 0xFFFE; 0x017D; 0xFFFE;
   0xFFFE; 0x2018; 0x2019; 0x201C; 0x201D; 0x2022; 0x2013; 0x2014;
   0x02DC; 0x2122; 0x0161; 0x203A; 0x0153; 0xFFFE; 0x017E; 0x0178]
  ++ map (fun i => 0xA0 + Z.of_nat i) (seq 0 96).

(** UTF-16: one or two 16-bit units per character, each unit as two bytes
    in the byte order [big]. *)
Definition utf16_unit (big : bool) (u : Z) : bytes :=
  if big then [u / 256; u mod 256] else [u mod 256; u / 256].

Definition utf16_1 (big : bool) (c : Z) : option bytes :=
  if is_surrogate c then None
  else if c <? 0x10000 then Some (utf16_unit big c)
  else Some (utf16_unit big (0xD800 + (c - 0x10000) / 1024)
             ++ utf16_unit big (0xDC00 + (c - 0x10000) mod 1024)).

(** The [unicode_escape] codec (it encodes every code point). *)
Definition unicode_escape_1 (c : Z) : bytes :=
  if c <? 0x100 then
    if (32 <=? c) && (c <? 127) then
      if c =? 92 then [92; 92] else [c]
    else if c =? 9 then lit "\t"
    else if c =? 10 then lit "\n"
    else if c =? 13 then lit "\r"
    else lit "\x" ++ format_int 16 false 2 c
  else if c <? 0x10000 then lit "\u" ++ format_int 16 false 4 c
  else lit "\U" ++ format_int 16 false 8 c.

(** [b.decode('ascii')] *)
Definition decode_ascii (b : bytes) : result str :=
  if forallb (fun x => x <? 128) b then Ok b else Raise UnicodeDecodeError.

(** [b.decode('utf-8', 'replace')]: an ill-formed sequence is replaced, up
    to its longest well-formed prefix, by one U+FFFD, and decoding resumes
    at the byte after that prefix. *)
Definition is_cont (b : Z) : bool := (0x80 <=? b) && (b <=? 0xBF).

(** The range of the second byte after the lead byte [b0] of a three- or
    four-byte sequence. *)
Definition second_ok (b0 b1 : Z) : bool :=
  if b0 =? 0xE0 then (0xA0 <=? b1) && (b1 <=? 0xBF)
  else if b0 =? 0xED then (0x80 <=? b1) && (b1 <=? 0x9F)
  else if b0 =? 0xF0 then (0x90 <=? b1) && (b1 <=? 0xBF)
  else if b0 =? 0xF4 then (0x80 <=? b1) && (b1 <=? 0x8F)
  else is_cont b1.

Definition FFFD : Z := 0xFFFD.

Fixpoint utf8_decode_replace (b : bytes) : str :=
  match b with
  | [] => []
  | b0 :: r0 =>
      if b0 <? 0x80 then b0 :: utf8_decode_replace r0
      else if (b0 <? 0xC2) || (0xF4 <? b0) then FFFD :: utf8_decode_replace r0
      else if b0 <? 0xE0 then
        match r0 with
        | [] => [FFFD]
        | b1 :: r1 =>
            if is_cont b1
            then ((b0 - 0xC0) * 64 + (b1 - 0x80)) :: utf8_decode_replace r1
            else FFFD :: utf8_decode_replace r0
        end
      else if b0 <? 0xF0 then
        match r0 with
        | [] => [FFFD]
        | b1 :: r1 =>
            if second_ok b0 b1 then
              match r1 with
              | [] => [FFFD]
              | b2 :: r2 =>
                  if is_cont b2
                  then ((b0 - 0xE0) * 4096 + (b1 - 0x80) * 64 + (b2 - 0x80))
                       :: utf8_decode_replace r2
                  else FFFD :: utf8_decode_replace r1
              end
            else FFFD :: utf8_decode_replace r0
        end
      else
        match r0 with
        | [] => [FFFD]
        | b1 :: r1 =>
            if second_ok b0 b1 then
              match r1 with
              | [] => [FFFD]
              | b2 :: r2 =>
                  if is_cont b2 then
                    match r2 with
                    | [] => [FFFD]
                    | b3 :: r3 =>
                        if is_cont b3
                        then ((b0 - 0xF0) * 262144 + (b1 - 0x80) * 4096
                              + (b2 - 0x80) * 64 + (b3 - 0x80))
                             :: utf8_decode_replace r3
                        else FFFD :: utf8_decode_replace r2
                    end
                  else FFFD :: utf8_decode_replace r1
              end
            else FFFD :: utf8_decode_replace r0
        end
  end.

End Py.

Import Py.

(** Exceptions propagate through sequenced calls. *)
Notation "x <- m ;; k" := (bind m (fun x => k))
  (at level 61, m at next level, right associativity).

(** ** Library routines outside the repository

    The compressors, the less common codecs, the Unicode digit table and
    the random source are not modelled: the transforms take them from an
    [Externals] record, and every statement holds for all of them. A
    library call may return or raise. *)

Record Externals : Type := {
  (* gzip.compress(data, compresslevel), zlib.compress(data, level) *)
  gzip_compress : bytes -> Z -> result bytes;
  zlib_compress : bytes -> Z -> result bytes;
  bz2_compress : bytes -> result bytes;
  lzma_compress : bytes -> result bytes;
  b32encode : bytes -> result bytes;
  b85encode : bytes -> result bytes;
  a85encode : bytes -> result bytes;
  quopri_encodestring : bytes -> result bytes;
  encode_punycode : str -> result bytes;       (* s.encode('punycode') *)
  encode_utf7 : str -> errors -> result bytes; (* s.encode('utf-7', errors) *)
  isdigit : Z -> bool;                         (* c.isdigit() *)
  random_shuffle : list Z -> list Z            (* random.shuffle(lst) *)
}.

(** *** [base64], [binascii] *)

Module base64.

Definition alphabet : str :=
  lit "ABCDEFGHIJKLMNOPQRSTUVWXYZabcdefghijklmnopqrstuvwxyz0123456789+/".

Definition sym (i : Z) : Z := nth (Z.to_nat i) alphabet 0.

Fixpoint b64encode (b : bytes) : bytes :=
  match b with
  | [] => []
  | [x] => [sym (x / 4); sym (x mod 4 * 16); 61; 61]
  | [x; y] =>
      [sym (x / 4); sym (x mod 4 * 16 + y / 16); sym (y mod 16 * 4); 61]
  | x :: y :: z :: rest =>
      sym (x / 4) :: sym (x mod 4 * 16 + y / 16)
      :: sym (y mod 16 * 4 + z / 64) :: sym (z mod 64) :: b64encode rest
  end.

(** [b64encode(s).translate(_urlsafe_encode_translation)] *)
Definition urlsafe_b64encode (b : bytes) : bytes :=
  map (fun c => if c =? 43 then 45 else if c =? 47 then 95 else c)
      (b64encode b).

End base64.

Module binascii.

Definition hexlify (b : bytes) : bytes := flat_map hex02 b.

End binascii.

(** *** [urllib.parse] *)

Module urllib.

Definition always_safe : str :=
  lit "ABCDEFGHIJKLMNOPQRSTUVWXYZabcdefghijklmnopqrstuvwxyz0123456789_.-~".

(** [_Quoter(safe)[b]] *)
Definition quoter (safe : bytes) (b : Z) : str :=
  if contains b (always_safe ++ safe) then [b] else 37 :: HEX02 b.

(** [quote_from_bytes(bs, safe)]; [safe] is reduced to its ASCII
    characters. *)
Definition quote_from_bytes (bs : bytes) (safe : str) : str :=
  flat_map (quoter (filter (fun c => c <? 128) safe)) bs.

(** [quote(string, safe)] with the default encoding [utf-8] and the default
    error handler [strict]. *)
Definition quote (string : str) (safe : str) : result str :=
  match string with
  | [] => Ok string
  | _ =>
      bs <- encode_with utf8_1 strict [63] string ;;
      Ok (quote_from_bytes bs safe)
  end.

(** [quote_plus(string)], [safe] being the default [''] *)
Definition quote_plus (string : str) : result str :=
  if negb (contains 32 string) then quote string []
  else
    q <- quote string [32] ;;
    Ok (replace 32 [43] q).

Definition is_hexdig (c : Z) : bool :=
  contains c (lit "0123456789ABCDEFabcdef").

Definition hexval (c : Z) : Z :=
  if c <? 58 then c - 48 else if c <? 71 then c - 55 else c - 87.

(** [unquote_to_bytes] on the bytes of an ASCII string: [%XY] with two
    hexadecimal digits becomes one byte, any other [%] stays. *)
Fixpoint unquote_to_bytes (b : bytes) : bytes :=
  match b with
  | [] => []
  | c :: t =>
      if c =? 37 then
        match t with
        | h1 :: h2 :: rest =>
            if is_hexdig h1 && is_hexdig h2
            then (hexval h1 * 16 + hexval h2) :: unquote_to_bytes rest
            else 37 :: unquote_to_bytes t
        | _ => 37 :: unquote_to_bytes t
        end
      else c :: unquote_to_bytes t
  end.

(** The loop of [unquote]: each maximal run of ASCII characters is
    percent-decoded and then decoded as UTF-8 with replacement; the other
    characters are kept. [run] is the current ASCII run, reversed. *)
Definition unquote_run (run : list Z) : str :=
  match run with
  | [] => []
  | _ => utf8_decode_replace (unquote_to_bytes (rev run))
  end.

Fixpoint unquote_parts (run : list Z) (s : str) : str :=
  match s with
  | [] => unquote_run run
  | c :: s' =>
      if (0 <=? c) && (c <? 128) then unquote_parts (c :: run) s'
      else unquote_run run ++ c :: unquote_parts [] s'
  end.

(** [unquote(string)] with the defaults [utf-8] and [replace]. *)
Definition unquote (string : str) : result str :=
  if negb (contains 37 string) then Ok string
  else Ok (unquote_parts [] string).

End urllib.

(** *** [html], [codecs] *)

Module html.

(** [html.escape(s, quote=True)] *)
Definition escape (s : str) : str :=
  let s := replace (ord "&") (lit "&amp;") s in
  let s := replace (ord "<") (lit "&lt;") s in
  let s := replace (ord ">") (lit "&gt;") s in
  let s := replace 34 (lit "&quot;") s in
  replace 39 (lit "&#x27;") s.

End html.

Module codecs.

Definition rot13_char (c : Z) : Z :=
  if (65 <=? c) && (c <=? 90) then 65 + (c - 65 + 13) mod 26
  else if (97 <=? c) && (c <=? 122) then 97 + (c - 97 + 13) mod 26
  else c.

(** [codecs.encode(s, 'rot_13')] *)
Definition encode_rot_13 (s : str) : result str := Ok (map rot13_char s).

End codecs.

(** [sorted(names)]: a stable sort by [<] on strings. *)
Fixpoint insert_sorted (x : str) (l : list str) : list str :=
  match l with
  | [] => [x]
  | y :: l' => if str_ltb y x then y :: insert_sorted x l' else x :: l
  end.

Fixpoint sorted (l : list str) : list str :=
  match l with
  | [] => []
  | x :: l' => insert_sorted x (sorted l')
  end.

(** ** Dictionaries, lists and loops

    A [dict] keeps its keys in insertion order; [d[k] = v] replaces the
    value of a key that is present and appends a new key at the end. *)

Definition dict (V : Type) : Type := list (str * V).

Fixpoint dict_get {V} (d : dict V) (k : str) : option V :=
  match d with
  | [] => None
  | (k', v) :: d' => if str_eqb k' k then Some v else dict_get d' k
  end.

Fixpoint dict_set {V} (d : dict V) (k : str) (v : V) : dict V :=
  match d with
  | [] => [(k, v)]
  | (k', v') :: d' =>
      if str_eqb k' k then (k', v) :: d' else (k', v') :: dict_set d' k v
  end.

Definition dict_keys {V} (d : dict V) : list str := map fst d.

(** [{k1: v1, k2: v2, ...}] *)
Definition dict_literal {V} (items : list (str * V)) : dict V :=
  fold_left (fun d kv => dict_set d (fst kv) (snd kv)) items [].

(** [d[k]] *)
Definition dict_getitem {V} (d : dict V) (k : str) : result V :=
  match dict_get d k with
  | Some v => Ok v
  | None => Raise KeyError
  end.

(** [d.get(k, default)] *)
Definition dict_get_default {V} (d : dict V) (k : str) (default : V) : V :=
  match dict_get d k with
  | Some v => v
  | None => default
  end.

(** [l[i]] *)
Definition list_getitem {A} (l : list A) (i : nat) : result A :=
  match nth_error l i with
  | Some a => Ok a
  | None => Raise IndexError
  end.

(** [range(start, stop)] *)
Definition range (start stop : nat) : list nat := seq start (stop - start).

(** [for a in l: body], the loop body updating the state [s]. *)
Fixpoint for_each {A S} (l : list A) (body : A -> S -> result S) (s : S)
    : result S :=
  match l with
  | [] => Ok s
  | a :: l' => s' <- body a s ;; for_each l' body s'
  end.

(** ** [scripts/format/transforms.py] *)

Section Transforms.

Variable X : Externals.

Definition transform : Type := str -> result str.

(** [s.encode(encoding, errors)] for the encodings that the module names;
    any other name raises [LookupError]. *)
Definition encode (s : str) (encoding : str) (e : errors) : result bytes :=
  if str_eqb encoding (lit "utf-8") then encode_with utf8_1 e [63] s
  else if str_eqb encoding (lit "latin1") then encode_with latin1_1 e [63] s
  else if str_eqb encoding (lit "cp1251")
    then encode_with (charmap_1 cp1251_table) e [63] s
  else if str_eqb encoding (lit "cp1252")
    then encode_with (charmap_1 cp1252_table) e [63] s
  else if str_eqb encoding (lit "utf-16le")
    then encode_with (utf16_1 false) e (utf16_unit false 63) s
  else if str_eqb encoding (lit "utf-16be")
    then encode_with (utf16_1 true) e (utf16_unit true 63) s
  else if str_eqb encoding (lit "utf-7") then encode_utf7 X s e
  else if str_eqb encoding (lit "ascii") then encode_with ascii_1 e [63] s
  else if str_eqb encoding (lit "punycode") then encode_punycode X s
  else if str_eqb encoding (lit "unicode_escape")
    then Ok (flat_map unicode_escape_1 s)
  else Raise LookupError.

Definition utf8 (s : str) : result bytes := encode s (lit "utf-8") strict.

(** [base64.b64encode(b).decode('ascii')] and
    [binascii.hexlify(b).decode('ascii')] *)
Definition b64_text (b : bytes) : result str :=
  decode_ascii (base64.b64encode b).
Definition hex_text (b : bytes) : result str :=
  decode_ascii (binascii.hexlify b).

(** *** Base transforms *)

Definition noop (s : str) : result str := Ok s.

Definition base64_std (s : str) : result str :=
  b <- utf8 s ;; b64_text b.

Definition base64_urlsafe (s : str) : result str :=
  b <- utf8 s ;; decode_ascii (base64.urlsafe_b64encode b).

Definition base64_nopad (s : str) : result str :=
  b <- utf8 s ;; t <- b64_text b ;; Ok (rstrip 61 t).

Definition hex_lower (s : str) : result str :=
  b <- utf8 s ;; hex_text b.

Definition hex_upper (s : str) : result str :=
  b <- utf8 s ;; t <- hex_text b ;; Ok (upper t).

Definition backslash_x (s : str) : result str :=
  bs <- utf8 s ;; Ok (join [] (map (fun b => lit "\x" ++ hex02 b) bs)).

Definition url_encode_all (s : str) : result str := urllib.quote s [].

Definition url_encode_safe_slash (s : str) : result str :=
  urllib.quote s (lit "/").

Definition double_url (s : str) : result str :=
  q <- urllib.quote s [] ;; urllib.quote q [].

Definition html_escape_named (s : str) : result str := Ok (html.escape s).

(** The five characters that the numeric HTML escapes replace: less-than,
    greater-than, ampersand, double quote (34) and apostrophe (39). *)
Definition html_specials : str := lit "<>&" ++ [34; 39].

Definition html_numeric_dec (s : str) : result str :=
  Ok (join [] (map (fun ch =>
        if (ch >? 127) || contains ch html_specials
        then lit "&#" ++ str_of_int ch ++ lit ";" else [ch]) s)).

Definition html_numeric_hex (s : str) : result str :=
  Ok (join [] (map (fun ch =>
        if (ch >? 127) || contains ch html_specials
        then lit "&#x" ++ format_int 16 false 1 ch ++ lit ";" else [ch]) s)).

Definition unicode_escape_python (s : str) : result str :=
  b <- encode s (lit "unicode_escape") strict ;; decode_ascii b.

Definition js_escape (s : str) : result str :=
  Ok (join [] (map (fun ch =>
        if ch =? 10 then lit "\n"
        else if ch =? 13 then lit "\r"
        else if ch =? 9 then lit "\t"
        else if contains ch [39; 34; 92] then [92; ch]
        else if (32 <=? ch) && (ch <? 127) then [ch]
        else lit "\u" ++ format_int 16 false 4 ch) s)).

Definition rot13 (s : str) : result str := codecs.encode_rot_13 s.

Definition rot47 (s : str) : result str :=
  Ok (join [] (map (fun c =>
        if (33 <=? c) && (c <=? 126) then [33 + (c - 33 + 47) mod 94]
        else [c]) s)).

Definition gzip_base64 (s : str) : result str :=
  b <- utf8 s ;; gz <- gzip_compress X b 9 ;; b64_text gz.

Definition zlib_base64 (s : str) : result str :=
  b <- utf8 s ;; c <- zlib_compress X b (-1) ;; b64_text c.

Definition bz2_base64 (s : str) : result str :=
  b <- utf8 s ;; c <- bz2_compress X b ;; b64_text c.

Definition lzma_base64 (s : str) : result str :=
  b <- utf8 s ;; c <- lzma_compress X b ;; b64_text c.

Definition base32_std (s : str) : result str :=
  b <- utf8 s ;; r <- b32encode X b ;; decode_ascii r.

Definition base85_std (s : str) : result str :=
  b <- utf8 s ;; r <- b85encode X b ;; decode_ascii r.

Definition ascii85_std (s : str) : result str :=
  b <- utf8 s ;; r <- a85encode X b ;; decode_ascii r.

Definition quoted_printable (s : str) : result str :=
  b <- utf8 s ;; r <- quopri_encodestring X b ;; decode_ascii r.

Definition punycode (s : str) : result str :=
  try_except (b <- encode s (lit "punycode") strict ;; decode_ascii b) s.

(** *** Generators over the byte encodings *)

Definition BYTE_ENCODINGS : list str :=
  [lit "utf-8"; lit "latin1"; lit "cp1251"; lit "cp1252";
   lit "utf-16le"; lit "utf-16be"; lit "utf-7"].

Definition f_hex (encoding : str) : transform := fun s =>
  try_except (b <- encode s encoding replace_errors ;; hex_text b) s.

Definition f_b64 (encoding : str) : transform := fun s =>
  try_except (b <- encode s encoding replace_errors ;; b64_text b) s.

Definition f_pct (encoding : str) : transform := fun s =>
  try_except
    (b <- encode s encoding replace_errors ;;
     Ok (join [] (map (fun byte => 37 :: HEX02 byte) b))) s.

Definition make_bytes_transform (encoding output : str) : result transform :=
  if str_eqb output (lit "hex") then Ok (f_hex encoding)
  else if str_eqb output (lit "base64") then Ok (f_b64 encoding)
  else if str_eqb output (lit "percent") then Ok (f_pct encoding)
  else Raise (ValueError (lit "unknown")).

(** *** Further base transforms (numbered 1 to 39 in the source) *)

Definition base64_custom_chars (s : str) : result str :=
  b <- utf8 s ;; b64 <- b64_text b ;;
  Ok (replace 47 [45] (replace 43 [95] b64)).

Definition base64_dot_pad (s : str) : result str :=
  b <- utf8 s ;; b64 <- b64_text b ;;
  Ok (ljust (List.length b64) 46 (rstrip 61 b64)).

Definition hex_colon (s : str) : result str :=
  bs <- utf8 s ;; Ok (join [58] (map hex02 bs)).

Definition hex_space (s : str) : result str :=
  bs <- utf8 s ;; Ok (join [32] (map hex02 bs)).

Definition hex_reverse (s : str) : result str :=
  b <- utf8 s ;; hex_text (rev b).

Definition rot5_digits (s : str) : result str :=
  Ok (join [] (map (fun c =>
        if isdigit X c then [(c - 48 + 5) mod 10 + 48] else [c]) s)).

Definition rot13_base64 (s : str) : result str :=
  r <- codecs.encode_rot_13 s ;; b <- utf8 r ;; b64_text b.

(** [range(0, stop, 76)] *)
Definition range_0_step76 (stop : nat) : list nat :=
  map (fun k => 76 * k)%nat (seq 0 ((stop + 75) / 76)).

(** The elements of a generator expression, evaluated in order until one of
    them raises. *)
Fixpoint generate {A B} (f : A -> result B) (l : list A) : result (list B) :=
  match l with
  | [] => Ok []
  | a :: l' => b <- f a ;; r <- generate f l' ;; Ok (b :: r)
  end.

Definition base64_mime (s : str) : result str :=
  parts <- generate (fun i =>
             b <- utf8 s ;; b64 <- b64_text b ;;
             Ok (slice i (i + 76) b64))
           (range_0_step76 (List.length s * 2)) ;;
  Ok (join [10] parts).

Definition url_encode_plus (s : str) : result str := urllib.quote_plus s.

Definition url_decode (s : str) : result str :=
  try_except (urllib.unquote s) s.

Definition html_escape_num_only (s : str) : result str :=
  Ok (join [] (map (fun c =>
        if contains c [38; 60; 62; 34; 39]
        then lit "&#" ++ str_of_int c ++ lit ";" else [c]) s)).

Definition hex_0x_prefix (s : str) : result str :=
  bs <- utf8 s ;; Ok (join [] (map (fun b => lit "0x" ++ hex02 b) bs)).

Definition unicode_escape_upper (s : str) : result str :=
  Ok (join [] (map (fun c =>
        if c >? 127 then lit "\u" ++ format_int 16 true 4 c else [c]) s)).

Definition shuffle_string (s : str) : result str :=
  Ok (join [] (map (fun c => [c]) (random_shuffle X s))).

Definition repeat_2x (s : str) : result str := Ok (s ++ s).
Definition repeat_3x (s : str) : result str := Ok (s ++ s ++ s).
Definition prefix_enc (s : str) : result str := Ok (lit "ENC:" ++ s).
Definition suffix_end (s : str) : result str := Ok (s ++ lit ":END").
Definition reverse_string (s : str) : result str := Ok (rev s).

Definition reverse_bytes_hex (s : str) : result str :=
  b <- utf8 s ;; hex_text (rev b).

Definition utf16le_bom_base64 (s : str) : result str :=
  b <- encode s (lit "utf-16le") strict ;; b64_text ([0xFF; 0xFE] ++ b).

Definition utf16be_bom_base64 (s : str) : result str :=
  b <- encode s (lit "utf-16be") strict ;; b64_text ([0xFE; 0xFF] ++ b).

Definition zlib_max_base64 (s : str) : result str :=
  b <- utf8 s ;; c <- zlib_compress X b 9 ;; b64_text c.

Definition gzip_max_base64 (s : str) : result str :=
  b <- utf8 s ;; gz <- gzip_compress X b 9 ;; b64_text gz.

Definition ascii_codes_dash (s : str) : result str :=
  Ok (join [45] (map str_of_int s)).

Definition ascii_codes_to_hex (s : str) : result str :=
  let codes := join [] (map str_of_int s) in
  b <- encode codes (lit "ascii") strict ;; hex_text b.

Definition base64_no_pad (s : str) : result str :=
  b <- utf8 s ;; t <- b64_text b ;; Ok (rstrip 61 t).

Definition base85_rot13 (s : str) : result str :=
  b <- utf8 s ;; r <- b85encode X b ;; b85 <- decode_ascii r ;;
  codecs.encode_rot_13 b85.

Definition base32_no_pad (s : str) : result str :=
  b <- utf8 s ;; r <- b32encode X b ;; t <- decode_ascii r ;;
  Ok (rstrip 61 t).

Definition remove_whitespace (s : str) : result str :=
  Ok (replace 9 [] (replace 32 [] s)).

Definition unicode_codepoints_space (s : str) : result str :=
  Ok (join [32] (map (fun c => lit "U+" ++ format_int 16 true 4 c) s)).

Definition escape_quotes (s : str) : result str :=
  Ok (replace 34 [92; 34] s).

Definition escape_apostrophes (s : str) : result str :=
  Ok (replace 39 [92; 39] s).

Definition base64_replace_a (s : str) : result str :=
  b <- utf8 s ;; t <- b64_text b ;; Ok (replace 65 [64] t).

Definition qp_custom (s : str) : result str :=
  b <- utf8 s ;; r <- quopri_encodestring X b ;; qp <- decode_ascii r ;;
  Ok (replace 95 (lit "=5F") qp).

Definition hex_then_base64 (s : str) : result str :=
  b <- utf8 s ;; b64_text (binascii.hexlify b).

Definition base64_then_hex (s : str) : result str :=
  b <- utf8 s ;; hex_text (base64.b64encode b).

Definition zlib_then_hex (s : str) : result str :=
  b <- utf8 s ;; c <- zlib_compress X b (-1) ;; hex_text c.

Definition lzma_then_hex (s : str) : result str :=
  b <- utf8 s ;; c <- lzma_compress X b ;; hex_text c.

Definition url_pct_lower (s : str) : result str :=
  q <- urllib.quote s [] ;; Ok (lower q).

Definition percent_bytes_lower (s : str) : result str :=
  b <- utf8 s ;; Ok (join [] (map (fun byte => 37 :: hex02 byte) b)).

Fixpoint nested_quote_loop (t : str) (count : nat) : result str :=
  match count with
  | O => Ok t
  | S count' => t' <- urllib.quote t [] ;; nested_quote_loop t' count'
  end.

Definition _nested_quote (s : str) (n : Z) : result str :=
  nested_quote_loop s (Z.to_nat n).

(** *** The registry

    The statements of the module, in order: the dictionary display, the
    loop over the byte encodings, the two further entries, the nested
    quoting family and the chains. *)

Definition TRANSFORMS_literal : dict transform :=
  dict_literal
  [
   (lit "noop", noop);
   (lit "base64", base64_std);
   (lit "base64_urlsafe", base64_urlsafe);
   (lit "base64_nopad", base64_nopad);
   (lit "hex_lower", hex_lower);
   (lit "hex_upper", hex_upper);
   (lit "backslash_x", backslash_x);
   (lit "url_all", url_encode_all);
   (lit "url_safe_slash", url_encode_safe_slash);
   (lit "double_url", double_url);
   (lit "html_named", html_escape_named);
   (lit "html_num_dec", html_numeric_dec);
   (lit "html_num_hex", html_numeric_hex);
   (lit "unicode_escape", unicode_escape_python);
   (lit "js_escape", js_escape);
   (lit "rot13", rot13);
   (lit "rot47", rot47);
   (lit "gzip_base64", gzip_base64);
   (lit "zlib_base64", zlib_base64);
   (lit "bz2_base64", bz2_base64);
   (lit "lzma_base64", lzma_base64);
   (lit "base32", base32_std);
   (lit "base85", base85_std);
   (lit "ascii85", ascii85_std);
   (lit "quoted_printable", quoted_printable);
   (lit "punycode", punycode);
   (lit "base64_custom_chars", base64_custom_chars);
   (lit "base64_dot_pad", base64_dot_pad);
   (lit "hex_colon", hex_colon);
   (lit "hex_space", hex_space);
   (lit "hex_reverse", hex_reverse);
   (lit "rot5_digits", rot5_digits);
   (lit "rot13_base64", rot13_base64);
   (lit "base64_mime", base64_mime);
   (lit "url_encode_plus", url_encode_plus);
   (lit "url_decode", url_decode);
   (lit "html_escape_num_only", html_escape_num_only);
   (lit "hex_0x_prefix", hex_0x_prefix);
   (lit "unicode_escape_upper", unicode_escape_upper);
   (lit "shuffle_string", shuffle_string);
   (lit "repeat_2x", repeat_2x);
   (lit "repeat_3x", repeat_3x);
   (lit "prefix_enc", prefix_enc);
   (lit "suffix_end", suffix_end);
   (lit "reverse_string", reverse_string);
   (lit "reverse_bytes_hex", reverse_bytes_hex);
   (lit "utf16le_bom_base64", utf16le_bom_base64);
   (lit "utf16be_bom_base64", utf16be_bom_base64);
   (lit "zlib_max_base64", zlib_max_base64);
   (lit "gzip_max_base64", gzip_max_base64);
   (lit "ascii_codes_dash", ascii_codes_dash);
   (lit "ascii_codes_to_hex", ascii_codes_to_hex);
   (lit "base64_no_pad", base64_no_pad);
   (lit "base85_rot13", base85_rot13);
   (lit "base32_no_pad", base32_no_pad);
   (lit "remove_whitespace", remove_whitespace);
   (lit "unicode_codepoints_space", unicode_codepoints_space);
   (lit "escape_quotes", escape_quotes);
   (lit "escape_apostrophes", escape_apostrophes);
   (lit "base64_replace_a", base64_replace_a);
   (lit "qp_custom", qp_custom);
   (lit "hex_then_base64", hex_then_base64);
   (lit "base64_then_hex", base64_then_hex);
   (lit "zlib_then_hex", zlib_then_hex);
   (lit "lzma_then_hex", lzma_then_hex)
  ].

Definition add_bytes_transforms (T : dict transform)
    : result (dict transform) :=
  for_each BYTE_ENCODINGS (fun enc T =>
    for_each [lit "hex"; lit "base64"; lit "percent"] (fun out T =>
      let name := replace 45 [] enc ++ lit "_" ++ out in
      f <- make_bytes_transform enc out ;;
      Ok (dict_set T name f)) T) T.

Definition add_percent_lower (T : dict transform) : dict transform :=
  let T := dict_set T (lit "url_pct_lower") url_pct_lower in
  dict_set T (lit "percent_bytes_lower") percent_bytes_lower.

Definition add_nested_quotes (T : dict transform) : result (dict transform) :=
  for_each [2; 3; 4; 5] (fun i T =>
    let name := lit "double_url_" ++ str_of_int i ++ lit "x" in
    Ok (dict_set T name ((fun n => (fun s => _nested_quote s n)) i))) T.

Definition make_chain (f1 f2 : transform) : transform := fun s =>
  try_except (t <- f1 s ;; f2 t) s.

Definition N_pairs : nat := 30.

Definition add_chains (T : dict transform) : result (dict transform) :=
  let existing_keys := dict_keys T in
  for_each (range 0 (Nat.min N_pairs (List.length existing_keys)))
    (fun i T =>
      for_each (range (i + 1) (Nat.min (i + 4) (List.length existing_keys)))
        (fun j T =>
          a <- list_getitem existing_keys i ;;
          b <- list_getitem existing_keys j ;;
          let name := a ++ lit "__then__" ++ b in
          f_a <- dict_getitem T a ;;
          f_b <- dict_getitem T b ;;
          Ok (dict_set T name (make_chain f_a f_b))) T) T.

(** The registry as the chain loop finds it. *)
Definition TRANSFORMS_before_chains : result (dict transform) :=
  T <- add_bytes_transforms TRANSFORMS_literal ;;
  add_nested_quotes (add_percent_lower T).

(** Importing the module. *)
Definition import_transforms : result (dict transform) :=
  T <- TRANSFORMS_before_chains ;; add_chains T.

Definition TRANSFORMS : dict transform :=
  match import_transforms with
  | Ok T => T
  | Raise _ => []
  end.

Definition list_transforms : list str := sorted (dict_keys TRANSFORMS).

(** ** [scripts/changing_the_format.py] *)

(** The message of the [ValueError] for a name that is not registered. *)
Definition not_found_message (transform_name : str) : str :=
  [0x41F; 0x440; 0x435; 0x43E; 0x431; 0x440; 0x430; 0x437; 0x43E; 0x432;
   0x430; 0x43D; 0x438; 0x435; 32]
  ++ transform_name
  ++ [32; 0x43D; 0x435; 32; 0x43D; 0x430; 0x439; 0x434; 0x435; 0x43D; 0x43E].

(** An entry of the JSON data: an object whose values are text. *)
Definition entry : Type := dict str.

Definition transform_payloads (json_data : list entry) (transform_name : str)
    : result (list str) :=
  match dict_get TRANSFORMS transform_name with
  | None => Raise (ValueError (not_found_message transform_name))
  | Some transform_func =>
      generate (fun entry =>
          let payload := dict_get_default entry (lit "payload") [] in
          try_except (transform_func payload) payload)
        json_data
  end.

End Transforms.

(** One choice of the external routines, for evaluating the statements at
    concrete inputs. The transforms evaluated there ([base64], [noop],
    [url_all], [url_decode], [hex_lower] and the byte-encoding family for
    [utf-8], [latin1] and [cp1251]) call none of them. *)
Definition sample_externals : Externals := {|
  gzip_compress := fun b _ => Ok b;
  zlib_compress := fun b _ => Ok b;
  bz2_compress := fun b => Ok b;
  lzma_compress := fun b => Ok b;
  b32encode := fun b => Ok b;
  b85encode := fun b => Ok b;
  a85encode := fun b => Ok b;
  quopri_encodestring := fun b => Ok b;
  encode_punycode := fun _ => Raise OtherError;
  encode_utf7 := fun _ _ => Raise OtherError;
  isdigit := fun c => (48 <=? c) && (c <=? 57);
  random_shuffle := fun l => l
|}.

(** ** Vocabulary of the statements *)

(** What [transform_payloads] reads from one entry. *)
Definition payload_of (e : entry) : str :=
  dict_get_default e (lit "payload") [].

(** The names that the chain loop reads: [existing_keys] of the source. *)
Definition existing_keys (X : Externals) : list str :=
  match TRANSFORMS_before_chains X with
  | Ok T => dict_keys T
  | Raise _ => []
  end.

(** The sliding window in the words of the specification: each of the first
    [K] positions [i] with the positions [i+1], [i+2], [i+3]. *)
Definition window_pairs (K : nat) (names : list str) : list (str * str) :=
  flat_map (fun i =>
      map (fun d => (nth i names [], nth (i + d) names [])) [1; 2; 3]%nat)
    (seq 0 K).

Definition chain_name (p : str * str) : str :=
  fst p ++ lit "__then__" ++ snd p.

(** The three output representations of the generator loop. *)
Definition OUTPUTS : list str := [lit "hex"; lit "base64"; lit "percent"].

(** The naming rule in the words of the specification: punctuation is
    stripped from the encoding identifier. *)
Definition is_alnum (c : Z) : bool :=
  ((48 <=? c) && (c <=? 57)) || ((65 <=? c) && (c <=? 90))
  || ((97 <=? c) && (c <=? 122)).

Definition family_name (p : str * str) : str :=
  filter is_alnum (fst p) ++ lit "_" ++ snd p.

Definition family : list (str * str) := list_prod BYTE_ENCODINGS OUTPUTS.

(** The text that the representation [out] gives for the bytes [b]. *)
Definition represent (out : str) (b : bytes) : result str :=
  if str_eqb out (lit "hex") then decode_ascii (binascii.hexlify b)
  else if str_eqb out (lit "base64") then decode_ascii (base64.b64encode b)
  else Ok (join [] (map (fun byte => 37 :: HEX02 byte) b)).

(** Number of occurrences of a name in a listing. *)
Definition occurrences (name : str) (names : list str) : nat :=
  List.length (filter (str_eqb name) names).

Fixpoint distinct (names : list str) : bool :=
  match names with
  | [] => true
  | n :: rest => negb (existsb (str_eqb n) rest) && distinct rest
  end.

(** Lexicographic order on strings, by code point. *)
Inductive lex_lt : str -> str -> Prop :=
| lex_prefix (y : Z) (b : str) : lex_lt [] (y :: b)
| lex_head (x y : Z) (a b : str) : x < y -> lex_lt (x :: a) (y :: b)
| lex_tail (x : Z) (a b : str) : lex_lt a b -> lex_lt (x :: a) (x :: b).

Fixpoint increasing (names : list str) : bool :=
  match names with
  | [] => true
  | a :: rest =>
      match rest with
      | [] => true
      | b :: _ => str_ltb a b && increasing rest
      end
  end.

(** A conjunction over a list that reduces to its conjuncts. *)
Fixpoint conj_all {A} (P : A -> Prop) (l : list A) : Prop :=
  match l with
  | [] => True
  | x :: l' => P x /\ conj_all P l'
  end.

(** The entry registered for the chain [p] is [make_chain] of the entries
    registered for its two names. *)
Definition chain_entry_ok (T : dict transform) (p : str * str) : Prop :=
  match dict_get T (fst p), dict_get T (snd p), dict_get T (chain_name p) with
  | Some f1, Some f2, Some chain => chain = make_chain f1 f2
  | _, _, _ => False
  end.

(** The entry registered for the pair [p] of the family is the function that
    [make_bytes_transform] returns for that pair. *)
Definition family_entry_ok (X : Externals) (T : dict transform)
    (p : str * str) : Prop :=
  match dict_get T (family_name p), make_bytes_transform X (fst p) (snd p) with
  | Some f, Ok g => f = g
  | _, _ => False
  end.

(** Evaluation of the registry that leaves the transforms folded. *)
Ltac registry_compute :=
  cbv -[
    ascii85_std ascii_codes_dash ascii_codes_to_hex backslash_x
    base32_no_pad base32_std base64_custom_chars base64_dot_pad base64_mime
    base64_no_pad base64_nopad base64_replace_a base64_std base64_then_hex
    base64_urlsafe base85_rot13 base85_std bz2_base64 double_url
    escape_apostrophes escape_quotes gzip_base64 gzip_max_base64
    hex_0x_prefix hex_colon hex_lower hex_reverse hex_space hex_then_base64
    hex_upper html_escape_named html_escape_num_only html_numeric_dec
    html_numeric_hex js_escape lzma_base64 lzma_then_hex noop prefix_enc
    punycode qp_custom quoted_printable remove_whitespace repeat_2x
    repeat_3x reverse_bytes_hex reverse_string rot13 rot13_base64 rot47
    rot5_digits shuffle_string suffix_end unicode_codepoints_space
    unicode_escape_python unicode_escape_upper url_decode url_encode_all
    url_encode_plus url_encode_safe_slash utf16be_bom_base64
    utf16le_bom_base64 zlib_base64 zlib_max_base64 zlib_then_hex f_hex f_b64
    f_pct _nested_quote make_chain url_pct_lower percent_bytes_lower
  ].

(** Text that UTF-8 can encode: code points in range, no lone surrogate. *)
Definition encodable (s : str) : bool := forallb is_scalar s.

Definition is_ascii (c : Z) : bool := (0 <=? c) && (c <? 128).

(** Every byte value, and what [quoter] has to give on each of them for
    [unquote_to_bytes] to read it back. *)
Definition all_bytes : list Z := map Z.of_nat (seq 0 256).

Definition quoter_checked (b : Z) : bool :=
  match urllib.quoter [] b with
  | [c] => (c =? b) && negb (c =? 37) && is_ascii c
  | [p; h1; h2] =>
      (p =? 37) && urllib.is_hexdig h1 && urllib.is_hexdig h2
      && (urllib.hexval h1 * 16 + urllib.hexval h2 =? b)
      && is_ascii h1 && is_ascii h2
  | _ => false
  end.

(** Unpadded Base64 in the words of the specification: the standard Base64
    of the UTF-8 bytes, the trailing padding characters removed. *)
Fixpoint drop_leading (c : Z) (l : list Z) : list Z :=
  match l with
  | [] => []
  | x :: l' => if x =? c then drop_leading c l' else l
  end.

Definition strip_trailing (c : Z) (t : str) : str :=
  rev (drop_leading c (rev t)).

Definition base64_unpadded (s : str) : result str :=
  b <- encode_with utf8_1 strict [63] s ;;
  Ok (strip_trailing 61 (base64.b64encode b)).

(** Lowercase hexadecimal of the UTF-8 bytes of an encodable text. *)
Definition utf8_hex_digits (s : str) : str :=
  binascii.hexlify (flat_map utf8_char s).

(** Case analysis on the integer comparisons of the goal. *)
Ltac zcases :=
  repeat match goal with
  | |- context [?a <? ?b] => destruct (Z.ltb_spec a b); try lia
  | |- context [?a <=? ?b] => destruct (Z.leb_spec a b); try lia
  | |- context [?a =? ?b] => destruct (Z.eqb_spec a b); try lia
  end.

(** ** [scripts/run_all_transforms.py] *)

(** [transform_names] of [main]: [sorted(TRANSFORMS.keys())]. *)
Definition transform_names (X : Externals) : list str :=
  sorted (dict_keys (TRANSFORMS X)).

(** ** Vocabulary of the further properties *)

Definition below128 (t : list Z) : bool := forallb (fun x => x <? 128) t.

(** Python text: every code point is in range. *)
Definition well_formed (s : str) : bool :=
  forallb (fun c => (0 <=? c) && (c <=? 0x10FFFF)) s.

(** The entries that encode with the strict handler outside any [try]. *)
Definition strict_utf8_names : list str :=
  map lit
    ["base64"; "base64_urlsafe"; "base64_nopad"; "hex_lower"; "hex_upper";
     "backslash_x"; "url_all"; "url_safe_slash"; "double_url"; "gzip_base64";
     "zlib_base64"; "bz2_base64"; "lzma_base64"; "base32"; "base85";
     "ascii85"; "quoted_printable"; "base64_custom_chars"; "base64_dot_pad";
     "hex_colon"; "hex_space"; "hex_reverse"; "rot13_base64"; "base64_mime";
     "url_encode_plus"; "hex_0x_prefix"; "reverse_bytes_hex";
     "utf16le_bom_base64"; "utf16be_bom_base64"; "zlib_max_base64";
     "gzip_max_base64"; "base64_no_pad"; "base85_rot13"; "base32_no_pad";
     "base64_replace_a"; "qp_custom"; "hex_then_base64"; "base64_then_hex";
     "zlib_then_hex"; "lzma_then_hex"; "url_pct_lower"; "percent_bytes_lower";
     "double_url_2x"; "double_url_3x"; "double_url_4x"; "double_url_5x"]%string.

(** What an entry does about exceptions: it raises on the lone surrogate
    U+D800 when its name is in [strict_utf8_names], and it never raises
    otherwise. *)
Definition raise_profile (kv : str * transform) : Prop :=
  if existsb (str_eqb (fst kv)) strict_utf8_names
  then snd kv [0xD800] = Raise UnicodeEncodeError
  else forall s : str, raises (snd kv s) = false.

(** External routines that return: the compressors return bytes, and the
    text encoders ([b32encode], [b85encode], [a85encode],
    [quopri.encodestring]) return ASCII bytes, as the library's do. *)
Record returning (X : Externals) : Prop := {
  gzip_returns : forall b l, exists r, gzip_compress X b l = Ok r;
  zlib_returns : forall b l, exists r, zlib_compress X b l = Ok r;
  bz2_returns : forall b, exists r, bz2_compress X b = Ok r;
  lzma_returns : forall b, exists r, lzma_compress X b = Ok r;
  b32_text : forall b, exists r, b32encode X b = Ok r /\ below128 r = true;
  b85_text : forall b, exists r, b85encode X b = Ok r /\ below128 r = true;
  a85_text : forall b, exists r, a85encode X b = Ok r /\ below128 r = true;
  quopri_text : forall b,
    exists r, quopri_encodestring X b = Ok r /\ below128 r = true
}.

Definition returns_on_encodable (f : transform) : Prop :=
  forall s : str, encodable s = true -> raises (f s) = false.

(** External routines that return, for evaluating statements that assume
    [returning]. *)
Definition quiet_externals : Externals := {|
  gzip_compress := fun b _ => Ok b;
  zlib_compress := fun b _ => Ok b;
  bz2_compress := fun b => Ok b;
  lzma_compress := fun b => Ok b;
  b32encode := fun _ => Ok [];
  b85encode := fun _ => Ok [];
  a85encode := fun _ => Ok [];
  quopri_encodestring := fun _ => Ok [];
  encode_punycode := fun _ => Raise OtherError;
  encode_utf7 := fun _ _ => Raise OtherError;
  isdigit := fun c => (48 <=? c) && (c <=? 57);
  random_shuffle := fun l => l
|}.

(** A byte and its percent escape are made of encodable characters. *)
Definition quoted_scalar (b : Z) : bool :=
  forallb is_scalar (b :: 37 :: HEX02 b).

(** What [rot47] does to one character. *)
Definition rot47_char (c : Z) : Z :=
  if (33 <=? c) && (c <=? 126) then 33 + (c - 33 + 47) mod 94 else c.

(** The text [q] stands for the byte [b] in percent-encoding: either the
    byte itself, an ASCII character other than [%], or [%] and two
    hexadecimal digits of value [b]. *)
Definition percent_form (q : str) (b : Z) : bool :=
  match q with
  | [c] => (c =? b) && negb (c =? 37) && is_ascii c
  | [p; h1; h2] =>
      (p =? 37) && urllib.is_hexdig h1 && urllib.is_hexdig h2
      && (urllib.hexval h1 * 16 + urllib.hexval h2 =? b)
      && is_ascii h1 && is_ascii h2
  | _ => false
  end.

(** [url_decode] applied [n] times. *)
Fixpoint url_decode_times (n : nat) (y : str) : result str :=
  match n with
  | O => Ok y
  | S n' => z <- url_decode y ;; url_decode_times n' z
  end.

(** What [quote_plus] writes for one byte of a text with spaces, and the
    byte that [unquote] reads back from it. *)
Definition space_to_plus (c : Z) : Z := if c =? 32 then 43 else c.

Definition plus_quoter (b : Z) : str :=
  replace 32 [43] (urllib.quoter [32] b).

(** None of the characters less-than, greater-than, double quote and
    apostrophe occurs in [t]. *)
Definition markup_free (t : str) : bool :=
  forallb (fun c => negb (contains c [60; 62; 34; 39])) t.

(** The characters of a numeral in base at most 16: digits and the letters
    [a-f] or [A-F]. *)
Definition is_numeral_char (c : Z) : bool :=
  ((48 <=? c) && (c <=? 57)) || ((65 <=? c) && (c <=? 70))
  || ((97 <=? c) && (c <=? 102)).

(** The two digits of a byte hold neither a colon nor a space. *)
Definition hex_pair_checked (b : Z) : bool :=
  (List.length (hex02 b) =? 2)%nat
  && negb (contains 58 (hex02 b)) && negb (contains 32 (hex02 b)).

(** Space or tab. *)
Definition is_blank (c : Z) : bool := (c =? 32) || (c =? 9).

Definition printable (c : Z) : bool := (32 <=? c) && (c <? 127).

(** The encodings of the family that encode an ASCII character as its own
    code. *)
Definition ASCII_COMPATIBLE : list str :=
  [lit "utf-8"; lit "latin1"; lit "cp1251"; lit "cp1252"].

(** * Properties *)

(** ** Dictionaries and lists *)

Lemma str_eqb_eq (a b : str) : str_eqb a b = true <-> a = b.
Proof.
  revert b; induction a as [|x a IH]; intros [|y b]; simpl;
    try (split; (discriminate || reflexivity)).
  rewrite andb_true_iff, Z.eqb_eq, IH.
  split; [intros [-> ->]; reflexivity | intros [= -> ->]; split; reflexivity].
Qed.

Lemma str_eqb_refl (a : str) : str_eqb a a = true.
Proof. apply str_eqb_eq; reflexivity. Qed.

Lemma dict_get_in_keys {V} (d : dict V) (k : str) :
  In k (dict_keys d) <-> exists v, dict_get d k = Some v.
Proof.
  induction d as [|[k' v'] d IH]; simpl.
  - split; [intros [] | intros [v Hv]; discriminate].
  - destruct (str_eqb k' k) eqn:E.
    + apply str_eqb_eq in E. split; [eexists; reflexivity | auto].
    + rewrite <- IH. split; [intros [H | H]; auto | auto].
      subst k'. rewrite str_eqb_refl in E. discriminate.
Qed.

Lemma conj_all_in {A} (P : A -> Prop) (l : list A) (x : A) :
  conj_all P l -> In x l -> P x.
Proof.
  induction l as [|y l IH]; simpl; [intros _ []|].
  intros [Hy Hl] [-> | Hin]; auto.
Qed.

Lemma conj_all_Forall {A} (P : A -> Prop) (l : list A) :
  conj_all P l -> Forall P l.
Proof.
  induction l as [|y l IH]; simpl; [constructor|].
  intros [Hy Hl]. constructor; auto.
Qed.

Lemma existsb_str_eqb (n : str) (l : list str) :
  existsb (str_eqb n) l = true <-> In n l.
Proof.
  rewrite existsb_exists. split.
  - intros [x [Hin E]]. apply str_eqb_eq in E. subst. exact Hin.
  - intros Hin. exists n. split; [exact Hin | apply str_eqb_refl].
Qed.

Lemma distinct_NoDup (l : list str) : distinct l = true -> NoDup l.
Proof.
  induction l as [|n l IH]; simpl; [constructor|].
  rewrite andb_true_iff, negb_true_iff. intros [Hn Hl].
  constructor; [|auto].
  intros Hin. apply existsb_str_eqb in Hin. congruence.
Qed.

(** ** The facade catches what a transform raises *)

Lemma generate_try_except (f : transform) (json_data : list entry) :
  generate (fun e => try_except (f (payload_of e)) (payload_of e)) json_data
  = Ok (map (fun e => match f (payload_of e) with
                      | Ok transformed => transformed
                      | Raise _ => payload_of e
                      end) json_data).
Proof.
  induction json_data as [|e l IH]; simpl; [reflexivity|].
  rewrite IH. destruct (f (payload_of e)); reflexivity.
Qed.

(** C1. For every name of the registry and every list of entries with text
    payloads, [transform_payloads] returns (it never raises) one text per
    entry: the result of the registered transform on the payload or, where
    that transform raises, the payload unchanged. *)
Theorem facade_never_raises (X : Externals) (name : str)
    (json_data : list entry) :
  In name (dict_keys (TRANSFORMS X)) ->
  exists f,
    dict_get (TRANSFORMS X) name = Some f /\
    transform_payloads X json_data name
    = Ok (map (fun e => match f (payload_of e) with
                        | Ok transformed => transformed
                        | Raise _ => payload_of e
                        end) json_data).
Proof.
  intros H.
  destruct (proj1 (dict_get_in_keys (TRANSFORMS X) name) H) as [f Hf].
  exists f. split; [exact Hf|].
  unfold transform_payloads. rewrite Hf. apply generate_try_except.
Qed.

(** The registered [base64] raises on a lone surrogate; through the facade
    the payload comes back unchanged, next to an encoded [abc] and to the
    empty text of an entry without payload. *)
Lemma facade_never_raises_witness :
  In (lit "base64") (dict_keys (TRANSFORMS sample_externals)) /\
  base64_std sample_externals [0xD800] = Raise UnicodeEncodeError /\
  transform_payloads sample_externals
    [[(lit "payload", [0xD800])]; [(lit "payload", lit "abc")]; []]
    (lit "base64")
  = Ok [[0xD800]; lit "YWJj"; []].
Proof.
  assert (Hin : In (lit "base64") (dict_keys (TRANSFORMS sample_externals))).
  { vm_compute. right. left. reflexivity. }
  split; [exact Hin|]. split; [reflexivity|].
  destruct (facade_never_raises sample_externals (lit "base64")
              [[(lit "payload", [0xD800])]; [(lit "payload", lit "abc")]; []]
              Hin) as [f [Hf Hout]].
  rewrite Hout.
  assert (Hb : Some f = Some (base64_std sample_externals))
    by (rewrite <- Hf; reflexivity).
  injection Hb as ->. reflexivity.
Defined.

(** C2. The scenario of the specification, through the registry and through
    the facade; the error for an unregistered name, [unknown_name] or any
    other, is the [ValueError] that [transform_payloads] raises. *)
Theorem scenario_values (X : Externals) :
  transform_payloads X [[(lit "payload", lit "abc")]] (lit "base64")
    = Ok [lit "YWJj"] /\
  transform_payloads X [[(lit "payload", lit "abc")]] (lit "rot13")
    = Ok [lit "nop"] /\
  transform_payloads X [[(lit "payload", lit "AB")]] (lit "hex_lower")
    = Ok [lit "4142"] /\
  transform_payloads X [[(lit "payload", lit "a b")]] (lit "url_all")
    = Ok [lit "a%20b"] /\
  dict_get (TRANSFORMS X) (lit "unknown_name") = None /\
  transform_payloads X [[(lit "payload", lit "x")]] (lit "unknown_name")
    = Raise (ValueError (not_found_message (lit "unknown_name"))) /\
  (forall (name : str) (json_data : list entry),
     In name (dict_keys (TRANSFORMS X)) \/
     transform_payloads X json_data name
     = Raise (ValueError (not_found_message name))).
Proof.
  do 6 (split; [vm_compute; reflexivity|]).
  intros name json_data. unfold transform_payloads.
  destruct (dict_get (TRANSFORMS X) name) as [f|] eqn:E; [left | right].
  - exact (proj2 (dict_get_in_keys (TRANSFORMS X) name)
             (ex_intro _ f E)).
  - reflexivity.
Qed.

(** ** Shape of the registry *)

Lemma import_succeeds (X : Externals) :
  import_transforms X = Ok (TRANSFORMS X).
Proof. registry_compute. reflexivity. Qed.

Lemma chains_registered (X : Externals) :
  conj_all (chain_entry_ok (TRANSFORMS X))
    (window_pairs N_pairs (existing_keys X)).
Proof. registry_compute. repeat split. Qed.

Lemma family_registered (X : Externals) :
  conj_all (family_entry_ok X (TRANSFORMS X)) family.
Proof. registry_compute. repeat split. Qed.

Lemma family_names_agree :
  conj_all (fun p => family_name p
                     = replace 45 [] (fst p) ++ lit "_" ++ snd p) family.
Proof. vm_compute. repeat split. Qed.

Lemma family_functions (X : Externals) (s : str) :
  conj_all (fun p =>
      match make_bytes_transform X (fst p) (snd p) with
      | Ok g => g s = try_except
                        (b <- encode X s (fst p) replace_errors ;;
                         represent (snd p) b) s
      | Raise _ => False
      end) family.
Proof. cbn. repeat split. Qed.

Lemma make_chain_spec (f1 f2 : transform) (s : str) :
  make_chain f1 f2 s
  = match f1 s with
    | Raise _ => Ok s
    | Ok t => match f2 t with
              | Raise _ => Ok s
              | Ok u => Ok u
              end
    end.
Proof.
  unfold make_chain, try_except, bind.
  destruct (f1 s) as [t|e]; [destruct (f2 t)|]; reflexivity.
Qed.

(** C3. Each chain that the window registers, under the name
    [first__then__second], returns the input unchanged when the entry of
    [first] raises on the input or the entry of [second] raises on the
    result of the first, and the result of the second otherwise. *)
Theorem chain_all_or_nothing (X : Externals) (first second s : str) :
  In (first, second) (window_pairs N_pairs (existing_keys X)) ->
  exists f1 f2 chain,
    dict_get (TRANSFORMS X) first = Some f1 /\
    dict_get (TRANSFORMS X) second = Some f2 /\
    dict_get (TRANSFORMS X) (first ++ lit "__then__" ++ second) = Some chain /\
    chain s = match f1 s with
              | Raise _ => Ok s
              | Ok t => match f2 t with
                        | Raise _ => Ok s
                        | Ok u => Ok u
                        end
              end.
Proof.
  intros Hin.
  pose proof (conj_all_in _ _ _ (chains_registered X) Hin) as H.
  unfold chain_entry_ok, chain_name in H. simpl fst in H. simpl snd in H.
  destruct (dict_get (TRANSFORMS X) first) as [f1|]; [|contradiction].
  destruct (dict_get (TRANSFORMS X) second) as [f2|]; [|contradiction].
  destruct (dict_get (TRANSFORMS X) (first ++ lit "__then__" ++ second))
    as [chain|]; [|contradiction].
  exists f1, f2, chain. repeat split. subst chain. apply make_chain_spec.
Qed.

(** The first stage passes a lone surrogate on, the second raises on it:
    the chain returns the input. *)
Lemma chain_all_or_nothing_witness :
  In (lit "noop", lit "base64")
     (window_pairs N_pairs (existing_keys sample_externals))
  /\ exists chain,
       dict_get (TRANSFORMS sample_externals) (lit "noop__then__base64")
       = Some chain /\
       base64_std sample_externals [0xD800] = Raise UnicodeEncodeError /\
       chain [0xD800] = Ok [0xD800].
Proof.
  assert (Hin : In (lit "noop", lit "base64")
                   (window_pairs N_pairs (existing_keys sample_externals))).
  { vm_compute. left. reflexivity. }
  split; [exact Hin|].
  destruct (chain_all_or_nothing sample_externals (lit "noop") (lit "base64")
              [0xD800] Hin) as [f1 [f2 [chain [H1 [H2 [H3 H4]]]]]].
  exists chain. split; [exact H3|]. split; [reflexivity|].
  assert (E1 : Some f1 = Some noop) by (rewrite <- H1; reflexivity).
  assert (E2 : Some f2 = Some (base64_std sample_externals))
    by (rewrite <- H2; reflexivity).
  injection E1 as ->. injection E2 as ->. exact H4.
Defined.

(** C4. The entry registered for an (encoding, representation) pair of the
    family encodes with that pair's encoding and renders with that pair's
    representation; and the entries [latin1_hex] and [cp1251_hex] differ on
    the one-character text U+042F, which [cp1251] encodes as the byte DF and
    [latin1] replaces by a question mark. *)
Theorem generated_own_parameters (X : Externals) (enc out s : str) :
  In (enc, out) family ->
  (exists f,
     dict_get (TRANSFORMS X) (replace 45 [] enc ++ lit "_" ++ out) = Some f /\
     f s = try_except
             (b <- encode X s enc replace_errors ;; represent out b) s) /\
  (exists f g,
     dict_get (TRANSFORMS X) (lit "latin1_hex") = Some f /\
     dict_get (TRANSFORMS X) (lit "cp1251_hex") = Some g /\
     f [0x42F] = Ok (lit "3f") /\ g [0x42F] = Ok (lit "df") /\
     f [0x42F] <> g [0x42F]).
Proof.
  intros Hin. split.
  - pose proof (conj_all_in _ _ _ (family_registered X) Hin) as H.
    pose proof (conj_all_in _ _ _ family_names_agree Hin) as Hname.
    pose proof (conj_all_in _ _ _ (family_functions X s) Hin) as Hfun.
    unfold family_entry_ok in H. cbn [fst snd] in H, Hname, Hfun.
    rewrite Hname in H.
    destruct (dict_get (TRANSFORMS X) (replace 45 [] enc ++ lit "_" ++ out))
      as [f|]; [|contradiction].
    destruct (make_bytes_transform X enc out) as [g|]; [|contradiction].
    exists f. split; [reflexivity|]. subst f. exact Hfun.
  - exists (f_hex X (lit "latin1")), (f_hex X (lit "cp1251")).
    split; [registry_compute; reflexivity|].
    split; [registry_compute; reflexivity|].
    split; [vm_compute; reflexivity|].
    split; [vm_compute; reflexivity|].
    vm_compute. discriminate.
Qed.

Lemma generated_own_parameters_witness :
  In (lit "cp1251", lit "hex") family /\
  exists f,
    dict_get (TRANSFORMS sample_externals) (lit "cp1251_hex") = Some f /\
    f [0x42F] = Ok (lit "df").
Proof.
  assert (Hin : In (lit "cp1251", lit "hex") family).
  { vm_compute. do 6 right. left. reflexivity. }
  split; [exact Hin|].
  destruct (generated_own_parameters sample_externals (lit "cp1251") (lit "hex")
              [0x42F] Hin) as [[f [Hf Hs]] _].
  exists f. split; [exact Hf | exact Hs].
Defined.

(** C5. Seven encodings times three representations give 21 pairs; their
    names (encoding with punctuation stripped, underscore, representation)
    are pairwise distinct and are the names that the loop computes; the loop
    appends exactly these 21 names to the names of the dictionary display;
    and each of them occurs once in the registry, bound to the function that
    [make_bytes_transform] returns for its pair. *)
Theorem family_registered_once (X : Externals) :
  List.length BYTE_ENCODINGS = 7%nat /\
  List.length OUTPUTS = 3%nat /\
  List.length (map family_name family) = 21%nat /\
  NoDup (map family_name family) /\
  Forall (fun enc => replace 45 [] enc = filter is_alnum enc) BYTE_ENCODINGS /\
  match add_bytes_transforms X (TRANSFORMS_literal X) with
  | Ok T => dict_keys T
            = dict_keys (TRANSFORMS_literal X) ++ map family_name family
  | Raise _ => False
  end /\
  Forall (fun p =>
      occurrences (family_name p) (dict_keys (TRANSFORMS X)) = 1%nat /\
      exists f,
        dict_get (TRANSFORMS X) (family_name p) = Some f /\
        make_bytes_transform X (fst p) (snd p) = Ok f) family.
Proof.
  split; [reflexivity|]. split; [reflexivity|]. split; [reflexivity|].
  split; [apply distinct_NoDup; vm_compute; reflexivity|].
  split; [repeat constructor|].
  split; [registry_compute; reflexivity|].
  apply Forall_forall. intros p Hin. split.
  - revert p Hin. apply Forall_forall. apply conj_all_Forall.
    vm_compute. repeat split.
  - pose proof (conj_all_in _ _ _ (family_registered X) Hin) as H.
    unfold family_entry_ok in H.
    destruct (dict_get (TRANSFORMS X) (family_name p)) as [f|];
      [|contradiction].
    destruct (make_bytes_transform X (fst p) (snd p)) as [g|];
      [|contradiction].
    exists f. subst g. split; reflexivity.
Qed.

(** C6. The chain loop reads the 92 names registered before it, in
    registration order, and appends to the registry exactly the names
    [first__then__second] of the pairs of the window: positions [i] below
    [N_pairs = 30] with positions [i+1], [i+2], [i+3]. The names of the
    registry are pairwise distinct, so each pair is registered once; the
    two names of a pair differ; and the entry of a pair is the chain of the
    entries of its two names. *)
Theorem chain_window (X : Externals) :
  N_pairs = 30%nat /\
  raises (TRANSFORMS_before_chains X) = false /\
  List.length (existing_keys X) = 92%nat /\
  existing_keys X
  = dict_keys (TRANSFORMS_literal X) ++ map family_name family
    ++ [lit "url_pct_lower"; lit "percent_bytes_lower"]
    ++ map (fun i => lit "double_url_" ++ str_of_int i ++ lit "x")
         [2; 3; 4; 5] /\
  dict_keys (TRANSFORMS X)
  = existing_keys X
    ++ map chain_name (window_pairs N_pairs (existing_keys X)) /\
  NoDup (dict_keys (TRANSFORMS X)) /\
  Forall (fun p => fst p <> snd p /\ chain_entry_ok (TRANSFORMS X) p)
    (window_pairs N_pairs (existing_keys X)).
Proof.
  split; [reflexivity|].
  split; [vm_compute; reflexivity|].
  split; [vm_compute; reflexivity|].
  split; [vm_compute; reflexivity|].
  split; [vm_compute; reflexivity|].
  split; [apply distinct_NoDup; vm_compute; reflexivity|].
  apply Forall_forall. intros p Hin. split.
  - revert p Hin. apply Forall_forall. apply conj_all_Forall.
    vm_compute. repeat split; discriminate.
  - exact (conj_all_in _ _ _ (chains_registered X) Hin).
Qed.

(** ** Sorting *)

Lemma str_ltb_lex (a b : str) : str_ltb a b = true <-> lex_lt a b.
Proof.
  revert b; induction a as [|x a IH]; intros [|y b]; simpl.
  - split; [discriminate | intros H; inversion H].
  - split; [intros _; constructor | reflexivity].
  - split; [discriminate | intros H; inversion H].
  - rewrite orb_true_iff, andb_true_iff, Z.ltb_lt, Z.eqb_eq, IH. split.
    + intros [H | [-> H]]; [apply lex_head | apply lex_tail]; assumption.
    + intros H; inversion H; subst; auto.
Qed.

Lemma lex_lt_trans (a b c : str) : lex_lt a b -> lex_lt b c -> lex_lt a c.
Proof.
  intros Hab; revert c.
  induction Hab as [y b | x y a b Hxy | x a b Hab IH]; intros c Hbc;
    inversion Hbc; subst.
  - constructor.
  - constructor.
  - apply lex_head; lia.
  - apply lex_head; assumption.
  - apply lex_head; assumption.
  - apply lex_tail; auto.
Qed.

Lemma increasing_Sorted (l : list str) :
  increasing l = true -> Sorted lex_lt l.
Proof.
  induction l as [|a l IH]; [constructor|].
  destruct l as [|b l]; [repeat constructor|].
  simpl increasing. rewrite andb_true_iff. intros [Hab Hl].
  constructor; [exact (IH Hl)|].
  constructor. apply str_ltb_lex; exact Hab.
Qed.

Lemma insert_sorted_perm (x : str) (l : list str) :
  Permutation (x :: l) (insert_sorted x l).
Proof.
  induction l as [|y l IH]; simpl; [reflexivity|].
  destruct (str_ltb y x); [|reflexivity].
  rewrite perm_swap. apply perm_skip. exact IH.
Qed.

Lemma sorted_perm (l : list str) : Permutation l (sorted l).
Proof.
  induction l as [|x l IH]; simpl; [reflexivity|].
  rewrite <- insert_sorted_perm. apply perm_skip. exact IH.
Qed.

(** C8. [list_transforms] returns the names of the registry, each of them
    once: a rearrangement of the registry's keys, in strictly increasing
    lexicographic order; and the listing is the same whatever the library
    routines, the random source included, compute. *)
Theorem list_transforms_sorted (X : Externals) :
  Permutation (dict_keys (TRANSFORMS X)) (list_transforms X) /\
  (forall name,
     In name (list_transforms X)
     <-> exists f, dict_get (TRANSFORMS X) name = Some f) /\
  StronglySorted lex_lt (list_transforms X) /\
  List.length (list_transforms X) = 182%nat /\
  forall X' : Externals, list_transforms X' = list_transforms X.
Proof.
  assert (HP : Permutation (dict_keys (TRANSFORMS X)) (list_transforms X))
    by apply sorted_perm.
  split; [exact HP|]. split.
  - intros name. rewrite <- dict_get_in_keys. split; intros H.
    + apply Permutation_in with (1 := Permutation_sym HP). exact H.
    + apply Permutation_in with (1 := HP). exact H.
  - split.
    + apply Sorted_StronglySorted.
      * intros a b c. apply lex_lt_trans.
      * apply increasing_Sorted. vm_compute. reflexivity.
    + split; [vm_compute; reflexivity|].
      intros X'. vm_compute. reflexivity.
Qed.

(** ** UTF-8, percent-encoding, Base64 and hexadecimal *)

Lemma is_scalar_bounds (c : Z) :
  is_scalar c = true <-> (0 <= c < 0xD800 \/ 0xDFFF < c <= 0x10FFFF).
Proof.
  unfold is_scalar, is_surrogate.
  zcases; simpl; split; (lia || discriminate || reflexivity).
Qed.

Lemma decode_1 (b0 : Z) (r : bytes) :
  b0 < 0x80 -> utf8_decode_replace (b0 :: r) = b0 :: utf8_decode_replace r.
Proof. intros H. cbn [utf8_decode_replace]. zcases. reflexivity. Qed.

Lemma decode_2 (b0 b1 : Z) (r : bytes) :
  0xC2 <= b0 < 0xE0 -> 0x80 <= b1 <= 0xBF ->
  utf8_decode_replace (b0 :: b1 :: r)
  = ((b0 - 0xC0) * 64 + (b1 - 0x80)) :: utf8_decode_replace r.
Proof.
  intros H0 H1. cbn [utf8_decode_replace]. unfold is_cont. zcases. reflexivity.
Qed.

Lemma decode_3 (b0 b1 b2 : Z) (r : bytes) :
  0xE0 <= b0 < 0xF0 -> 0x80 <= b1 <= 0xBF -> 0x80 <= b2 <= 0xBF ->
  (b0 = 0xE0 -> 0xA0 <= b1) -> (b0 = 0xED -> b1 <= 0x9F) ->
  utf8_decode_replace (b0 :: b1 :: b2 :: r)
  = ((b0 - 0xE0) * 4096 + (b1 - 0x80) * 64 + (b2 - 0x80))
    :: utf8_decode_replace r.
Proof.
  intros H0 H1 H2 HE0 HED. cbn [utf8_decode_replace].
  unfold second_ok, is_cont. zcases; reflexivity.
Qed.

Lemma decode_4 (b0 b1 b2 b3 : Z) (r : bytes) :
  0xF0 <= b0 <= 0xF4 -> 0x80 <= b1 <= 0xBF -> 0x80 <= b2 <= 0xBF ->
  0x80 <= b3 <= 0xBF ->
  (b0 = 0xF0 -> 0x90 <= b1) -> (b0 = 0xF4 -> b1 <= 0x8F) ->
  utf8_decode_replace (b0 :: b1 :: b2 :: b3 :: r)
  = ((b0 - 0xF0) * 262144 + (b1 - 0x80) * 4096 + (b2 - 0x80) * 64
     + (b3 - 0x80)) :: utf8_decode_replace r.
Proof.
  intros H0 H1 H2 H3 HF0 HF4. cbn [utf8_decode_replace].
  unfold second_ok, is_cont. zcases; reflexivity.
Qed.

Lemma utf8_char_decode (c : Z) (r : bytes) :
  is_scalar c = true ->
  utf8_decode_replace (utf8_char c ++ r) = c :: utf8_decode_replace r.
Proof.
  intros H. apply is_scalar_bounds in H. unfold utf8_char.
  destruct (Z.ltb_spec c 0x80); [|destruct (Z.ltb_spec c 0x800);
    [|destruct (Z.ltb_spec c 0x10000)]]; cbn [app].
  - apply decode_1. assumption.
  - rewrite decode_2; [f_equal|..]; Z.to_euclidean_division_equations; lia.
  - rewrite decode_3; [f_equal|..]; Z.to_euclidean_division_equations; lia.
  - rewrite decode_4; [f_equal|..]; Z.to_euclidean_division_equations; lia.
Qed.

Lemma utf8_char_range (c : Z) :
  is_scalar c = true -> Forall (fun b => 0 <= b < 256) (utf8_char c).
Proof.
  intros H. apply is_scalar_bounds in H. unfold utf8_char.
  destruct (Z.ltb_spec c 0x80); [|destruct (Z.ltb_spec c 0x800);
    [|destruct (Z.ltb_spec c 0x10000)]];
    repeat constructor; Z.to_euclidean_division_equations; lia.
Qed.

Lemma encode_utf8_scalar (e : errors) (s : str) :
  encodable s = true ->
  encode_with utf8_1 e [63] s = Ok (flat_map utf8_char s).
Proof.
  induction s as [|c s IH]; simpl; [reflexivity|].
  rewrite andb_true_iff. intros [Hc Hs]. rewrite (IH Hs).
  unfold utf8_1. assert (is_surrogate c = false) as ->.
  { unfold is_scalar in Hc. rewrite andb_true_iff, negb_true_iff in Hc. tauto. }
  reflexivity.
Qed.

Lemma utf8_bytes_range (s : str) :
  encodable s = true -> Forall (fun b => 0 <= b < 256) (flat_map utf8_char s).
Proof.
  induction s as [|c s IH]; simpl; [constructor|].
  rewrite andb_true_iff. intros [Hc Hs].
  apply Forall_app. split; [apply utf8_char_range; exact Hc | auto].
Qed.

Lemma utf8_decode_encode (s : str) :
  encodable s = true -> utf8_decode_replace (flat_map utf8_char s) = s.
Proof.
  induction s as [|c s IH]; simpl; [reflexivity|].
  rewrite andb_true_iff. intros [Hc Hs].
  rewrite utf8_char_decode by exact Hc. rewrite (IH Hs). reflexivity.
Qed.

Lemma in_all_bytes (b : Z) : 0 <= b < 256 -> In b all_bytes.
Proof.
  intros H. unfold all_bytes. apply in_map_iff. exists (Z.to_nat b).
  split; [lia|]. apply in_seq. lia.
Qed.

Lemma byte_check (P : Z -> bool) :
  forallb P all_bytes = true -> forall b, 0 <= b < 256 -> P b = true.
Proof.
  intros H b Hb. rewrite forallb_forall in H.
  apply H. apply in_all_bytes; exact Hb.
Qed.

Lemma quoter_checked_all (b : Z) : 0 <= b < 256 -> quoter_checked b = true.
Proof. apply byte_check. vm_compute. reflexivity. Qed.

Lemma unquote_quoter (b : Z) (rest : bytes) :
  0 <= b < 256 ->
  urllib.unquote_to_bytes (urllib.quoter [] b ++ rest)
  = b :: urllib.unquote_to_bytes rest /\
  forallb is_ascii (urllib.quoter [] b) = true.
Proof.
  intros Hb. pose proof (quoter_checked_all b Hb) as H.
  unfold quoter_checked in H.
  destruct (urllib.quoter [] b) as [|c [|h1 [|h2 [|? ?]]]]; try discriminate.
  - rewrite !andb_true_iff, negb_true_iff, Z.eqb_eq in H.
    destruct H as [[-> Hn] Ha]. cbn [app urllib.unquote_to_bytes forallb].
    rewrite Hn, Ha. split; reflexivity.
  - rewrite !andb_true_iff, !Z.eqb_eq in H.
    destruct H as [[[[[-> H1] H2] Hv] A1] A2].
    cbn [app urllib.unquote_to_bytes forallb].
    rewrite H1, H2, A1, A2, Hv. split; reflexivity.
Qed.

Lemma unquote_quote_bytes (bs : bytes) :
  Forall (fun b => 0 <= b < 256) bs ->
  urllib.unquote_to_bytes (flat_map (urllib.quoter []) bs) = bs /\
  forallb is_ascii (flat_map (urllib.quoter []) bs) = true.
Proof.
  induction 1 as [|b bs Hb Hbs [IH1 IH2]]; simpl; [split; reflexivity|].
  destruct (unquote_quoter b (flat_map (urllib.quoter []) bs) Hb) as [E A].
  rewrite E, IH1, forallb_app, A, IH2. split; reflexivity.
Qed.

Lemma unquote_parts_ascii (t : str) (run : list Z) :
  forallb is_ascii t = true ->
  urllib.unquote_parts run t = urllib.unquote_run (rev t ++ run).
Proof.
  revert run; induction t as [|c t IH]; intros run; simpl; [reflexivity|].
  rewrite andb_true_iff. intros [Hc Ht]. unfold is_ascii in Hc. rewrite Hc.
  rewrite (IH _ Ht), <- app_assoc. reflexivity.
Qed.

Lemma unquote_to_bytes_plain (t : bytes) :
  contains 37 t = false -> urllib.unquote_to_bytes t = t.
Proof.
  unfold contains.
  induction t as [|c t IH]; cbn [existsb urllib.unquote_to_bytes];
    [reflexivity|].
  rewrite orb_false_iff. intros [Hc Ht]. rewrite Z.eqb_sym, Hc, (IH Ht).
  reflexivity.
Qed.

Lemma utf8_decode_ascii (t : bytes) :
  forallb is_ascii t = true -> utf8_decode_replace t = t.
Proof.
  induction t as [|c t IH]; simpl forallb; [reflexivity|].
  rewrite andb_true_iff. intros [Hc Ht].
  unfold is_ascii in Hc. rewrite andb_true_iff, Z.ltb_lt in Hc.
  rewrite decode_1 by tauto. rewrite (IH Ht). reflexivity.
Qed.

Lemma unquote_quote (x : str) :
  encodable x = true ->
  (y <- urllib.quote x [] ;; urllib.unquote y) = Ok x.
Proof.
  intros Hx. destruct x as [|c x]; [reflexivity|].
  unfold urllib.quote. rewrite (encode_utf8_scalar strict _ Hx).
  cbn [bind]. unfold urllib.quote_from_bytes. cbn [filter].
  set (bs := flat_map utf8_char (c :: x)).
  destruct (unquote_quote_bytes bs (utf8_bytes_range _ Hx)) as [E A].
  assert (D : utf8_decode_replace bs = c :: x)
    by (apply utf8_decode_encode; exact Hx).
  set (t := flat_map (urllib.quoter []) bs) in *.
  unfold urllib.unquote. destruct (contains 37 t) eqn:Hp; cbn [negb].
  - rewrite (unquote_parts_ascii t [] A), app_nil_r.
    unfold urllib.unquote_run. rewrite rev_involutive, E, D.
    destruct (rev t) eqn:R; [|reflexivity].
    apply (f_equal (@rev Z)) in R. rewrite rev_involutive in R.
    rewrite R in Hp. discriminate.
  - rewrite (unquote_to_bytes_plain t Hp) in E. rewrite E in A.
    rewrite (utf8_decode_ascii bs A) in D. rewrite E, D. reflexivity.
Qed.

Lemma decode_ascii_ok (b : bytes) :
  forallb (fun x => x <? 128) b = true -> decode_ascii b = Ok b.
Proof. intros H. unfold decode_ascii. rewrite H. reflexivity. Qed.

Lemma sym_ascii (i : Z) : (base64.sym i <? 128) = true.
Proof.
  unfold base64.sym.
  destruct (nth_in_or_default (Z.to_nat i) base64.alphabet 0) as [H | ->];
    [|reflexivity].
  revert H. generalize (nth (Z.to_nat i) base64.alphabet 0).
  apply Forall_forall.
  vm_compute. repeat constructor.
Qed.

Lemma list_ind3 {A} (P : list A -> Prop) :
  P [] -> (forall x, P [x]) -> (forall x y, P [x; y]) ->
  (forall x y z l, P l -> P (x :: y :: z :: l)) ->
  forall l, P l.
Proof.
  intros H0 H1 H2 H3 l.
  assert (H : P l /\ (forall x, P (x :: l)) /\ (forall x y, P (x :: y :: l))).
  { induction l as [|a l [IH0 [IH1 IH2]]]; [auto|].
    split; [apply IH1|]. split; [intros x; apply IH2|].
    intros x y. apply H3. exact IH0. }
  apply H.
Qed.

Lemma b64encode_ascii (b : bytes) :
  forallb (fun x => x <? 128) (base64.b64encode b) = true.
Proof.
  induction b as [|x|x y|x y z l IH] using list_ind3;
    cbn [base64.b64encode forallb]; rewrite ?sym_ascii, ?IH; reflexivity.
Qed.

Lemma b64_text_ok (b : bytes) :
  decode_ascii (base64.b64encode b) = Ok (base64.b64encode b).
Proof. apply decode_ascii_ok, b64encode_ascii. Qed.

Lemma hex02_ascii (b : Z) :
  0 <= b < 256 -> forallb (fun x => x <? 128) (hex02 b) = true.
Proof.
  apply (byte_check (fun b => forallb (fun x => x <? 128) (hex02 b))).
  vm_compute. reflexivity.
Qed.

Lemma hexlify_ascii (bs : bytes) :
  Forall (fun b => 0 <= b < 256) bs ->
  forallb (fun x => x <? 128) (binascii.hexlify bs) = true.
Proof.
  unfold binascii.hexlify.
  induction 1 as [|b bs Hb Hbs IH]; simpl; [reflexivity|].
  rewrite forallb_app, (hex02_ascii b Hb), IH. reflexivity.
Qed.

Lemma base64_nopad_value (X : Externals) (s : str) :
  base64_nopad X s
  = (b <- encode_with utf8_1 strict [63] s ;;
     Ok (rstrip 61 (base64.b64encode b))).
Proof.
  unfold base64_nopad, utf8, encode, b64_text. cbn [str_eqb lit].
  change (str_eqb (lit "utf-8") (lit "utf-8")) with true. cbv iota.
  destruct (encode_with utf8_1 strict [63] s) as [b|e]; [|reflexivity].
  cbn [bind]. rewrite b64_text_ok. reflexivity.
Qed.

Lemma hex_lower_value (X : Externals) (s : str) :
  encodable s = true ->
  hex_lower X s = Ok (binascii.hexlify (flat_map utf8_char s)) /\
  f_hex X (lit "utf-8") s = Ok (binascii.hexlify (flat_map utf8_char s)).
Proof.
  intros Hs. unfold hex_lower, f_hex, utf8, encode, hex_text.
  change (str_eqb (lit "utf-8") (lit "utf-8")) with true. cbv iota.
  rewrite !(encode_utf8_scalar _ s Hs). cbn [bind].
  rewrite decode_ascii_ok by (apply hexlify_ascii, utf8_bytes_range; exact Hs).
  split; reflexivity.
Qed.

Lemma drop_leading_snoc (c x : Z) (l : list Z) :
  drop_leading c (l ++ [x])
  = match drop_leading c l with
    | [] => if x =? c then [] else [x]
    | r => r ++ [x]
    end.
Proof.
  induction l as [|y l IH]; cbn [app drop_leading]; [reflexivity|].
  destruct (y =? c); [exact IH | reflexivity].
Qed.

Lemma rstrip_strip_trailing (c : Z) (t : str) :
  rstrip c t = strip_trailing c t.
Proof.
  unfold strip_trailing.
  induction t as [|x t IH] using rev_ind; [reflexivity|].
  rewrite rev_app_distr. cbn [rev app drop_leading].
  destruct (Z.eqb_spec x c) as [-> | Hx].
  - rewrite <- IH. clear IH.
    induction t as [|y t IHt]; cbn [app rstrip].
    + rewrite Z.eqb_refl. reflexivity.
    + rewrite IHt. destruct (rstrip c t); reflexivity.
  - cbn [rev]. rewrite rev_involutive. clear IH.
    induction t as [|y t IHt]; cbn [app rstrip].
    + destruct (Z.eqb_spec x c); [contradiction | reflexivity].
    + rewrite IHt. destruct t; reflexivity.
Qed.

(** A lone surrogate has no UTF-8 encoding: the transforms that encode with
    the default handler raise on it, whatever the external routines are, and
    the generated ones replace it by a question mark. *)
Lemma lone_surrogate_behaviour (X : Externals) :
  base64_std X [0xD800] = Raise UnicodeEncodeError /\
  hex_lower X [0xD800] = Raise UnicodeEncodeError /\
  url_encode_all (lit "%41" ++ [0xD800]) = Raise UnicodeEncodeError /\
  f_hex X (lit "utf-8") [0xD800] = Ok (lit "3f").
Proof. repeat split; vm_compute; reflexivity. Qed.

(** ** Round trip and equal entries *)

(** C9. [base64_nopad] and [base64_no_pad] are two names of the registry;
    their entries agree on every text, in what they return and in what they
    raise, through the registry and through the facade; what they compute
    is the standard Base64 of the UTF-8 bytes without its trailing [=]
    (and they raise when the text has no UTF-8 encoding). *)
Theorem base64_nopad_twins (X : Externals) :
  lit "base64_nopad" <> lit "base64_no_pad" /\
  exists f g,
    dict_get (TRANSFORMS X) (lit "base64_nopad") = Some f /\
    dict_get (TRANSFORMS X) (lit "base64_no_pad") = Some g /\
    (forall s, f s = g s /\ f s = base64_unpadded s) /\
    (forall json_data,
       transform_payloads X json_data (lit "base64_nopad")
       = transform_payloads X json_data (lit "base64_no_pad")).
Proof.
  split; [discriminate|].
  exists (base64_nopad X), (base64_no_pad X).
  assert (H1 : dict_get (TRANSFORMS X) (lit "base64_nopad")
               = Some (base64_nopad X)) by (registry_compute; reflexivity).
  assert (H2 : dict_get (TRANSFORMS X) (lit "base64_no_pad")
               = Some (base64_no_pad X)) by (registry_compute; reflexivity).
  split; [exact H1|]. split; [exact H2|]. split.
  - intros s. split; [reflexivity|].
    rewrite base64_nopad_value. unfold base64_unpadded.
    destruct (encode_with utf8_1 strict [63] s); [|reflexivity].
    cbn [bind]. rewrite rstrip_strip_trailing. reflexivity.
  - intros json_data. unfold transform_payloads. rewrite H1, H2. reflexivity.
Qed.

(** C7, on the texts that UTF-8 encodes. [url_decode] applied to the output
    of [url_all] gives the text back, through the registry and through the
    facade. *)
Theorem url_roundtrip (X : Externals) (x : str) :
  encodable x = true ->
  exists f g y,
    dict_get (TRANSFORMS X) (lit "url_all") = Some f /\
    dict_get (TRANSFORMS X) (lit "url_decode") = Some g /\
    f x = Ok y /\ g y = Ok x /\
    transform_payloads X [[(lit "payload", x)]] (lit "url_all") = Ok [y] /\
    transform_payloads X [[(lit "payload", y)]] (lit "url_decode") = Ok [x].
Proof.
  intros Hx.
  assert (H1 : dict_get (TRANSFORMS X) (lit "url_all")
               = Some (url_encode_all)) by (registry_compute; reflexivity).
  assert (H2 : dict_get (TRANSFORMS X) (lit "url_decode")
               = Some (url_decode)) by (registry_compute; reflexivity).
  pose proof (unquote_quote x Hx) as R.
  destruct (urllib.quote x []) as [y|e] eqn:Q; [|discriminate].
  cbn [bind] in R.
  exists (url_encode_all), (url_decode), y.
  split; [exact H1|]. split; [exact H2|].
  assert (F : url_encode_all x = Ok y) by exact Q.
  assert (G : url_decode y = Ok x)
    by (unfold url_decode; rewrite R; reflexivity).
  split; [exact F|]. split; [exact G|].
  unfold transform_payloads. rewrite H1, H2.
  cbn [generate]. unfold dict_get_default.
  cbn [dict_get]. rewrite str_eqb_refl, F, G. split; reflexivity.
Qed.

Lemma url_roundtrip_witness :
  encodable (lit "a b/" ++ [0x42F; 0x1F600]) = true /\
  exists y,
    url_encode_all (lit "a b/" ++ [0x42F; 0x1F600]) = Ok y /\
    y = lit "a%20b%2F%D0%AF%F0%9F%98%80" /\
    url_decode y = Ok (lit "a b/" ++ [0x42F; 0x1F600]).
Proof.
  assert (Hx : encodable (lit "a b/" ++ [0x42F; 0x1F600]) = true)
    by reflexivity.
  split; [exact Hx|].
  destruct (url_roundtrip sample_externals (lit "a b/" ++ [0x42F; 0x1F600]) Hx)
    as [f [g [y [Hf [Hg [Hy [Hback _]]]]]]].
  assert (E1 : Some f = Some (url_encode_all))
    by (rewrite <- Hf; reflexivity).
  assert (E2 : Some g = Some (url_decode))
    by (rewrite <- Hg; reflexivity).
  injection E1 as ->. injection E2 as ->.
  exists y. split; [exact Hy|]. split; [|exact Hback].
  assert (E : Ok y = Ok (lit "a%20b%2F%D0%AF%F0%9F%98%80"))
    by (rewrite <- Hy; reflexivity).
  injection E as ->. reflexivity.
Defined.

(** C7 as stated fails on a text with a lone surrogate: on the four
    characters [%], [4], [1], U+D800 the entry [url_all] raises, so there
    is no output to decode; through the facade, which returns the payload
    when the entry raises, decoding gives the two characters [A], U+D800. *)
Lemma url_roundtrip_counterexample :
  exists f g,
    dict_get (TRANSFORMS sample_externals) (lit "url_all") = Some f /\
    dict_get (TRANSFORMS sample_externals) (lit "url_decode") = Some g /\
    f (lit "%41" ++ [0xD800]) = Raise UnicodeEncodeError /\
    (y <- f (lit "%41" ++ [0xD800]) ;; g y) <> Ok (lit "%41" ++ [0xD800]) /\
    transform_payloads sample_externals
      [[(lit "payload", lit "%41" ++ [0xD800])]] (lit "url_all")
    = Ok [lit "%41" ++ [0xD800]] /\
    transform_payloads sample_externals
      [[(lit "payload", lit "%41" ++ [0xD800])]] (lit "url_decode")
    = Ok [lit "A" ++ [0xD800]] /\
    lit "A" ++ [0xD800] <> lit "%41" ++ [0xD800].
Proof.
  exists (url_encode_all), (url_decode).
  split; [registry_compute; reflexivity|].
  split; [registry_compute; reflexivity|].
  split; [reflexivity|].
  split; [vm_compute; discriminate|].
  split; [vm_compute; reflexivity|].
  split; [vm_compute; reflexivity|].
  vm_compute. discriminate.
Qed.

(** C10, on the texts that UTF-8 encodes. The entries [hex_lower] and
    [utf8_hex] agree: both return the lowercase hexadecimal digits of the
    UTF-8 bytes. *)
Theorem hex_lower_utf8_hex (X : Externals) (s : str) :
  encodable s = true ->
  exists f g,
    dict_get (TRANSFORMS X) (lit "hex_lower") = Some f /\
    dict_get (TRANSFORMS X) (lit "utf8_hex") = Some g /\
    f s = g s /\
    f s = Ok (utf8_hex_digits s).
Proof.
  intros Hs.
  exists (hex_lower X), (f_hex X (lit "utf-8")).
  split; [registry_compute; reflexivity|].
  split; [registry_compute; reflexivity|].
  destruct (hex_lower_value X s Hs) as [E1 E2].
  rewrite E1, E2. split; reflexivity.
Qed.

Lemma hex_lower_utf8_hex_witness :
  encodable (lit "AB" ++ [0x42F]) = true /\
  hex_lower sample_externals (lit "AB" ++ [0x42F]) = Ok (lit "4142d0af") /\
  f_hex sample_externals (lit "utf-8") (lit "AB" ++ [0x42F])
  = Ok (lit "4142d0af").
Proof.
  assert (Hs : encodable (lit "AB" ++ [0x42F]) = true) by reflexivity.
  split; [exact Hs|].
  destruct (hex_lower_utf8_hex sample_externals (lit "AB" ++ [0x42F]) Hs)
    as [f [g [Hf [Hg [Hfg Hv]]]]].
  assert (E1 : Some f = Some (hex_lower sample_externals))
    by (rewrite <- Hf; reflexivity).
  assert (E2 : Some g = Some (f_hex sample_externals (lit "utf-8")))
    by (rewrite <- Hg; reflexivity).
  injection E1 as ->. injection E2 as ->.
  split; [rewrite Hv; reflexivity | rewrite <- Hfg, Hv; reflexivity].
Defined.

(** C10 as stated fails on a lone surrogate: on the one-character text
    U+D800 the entry [hex_lower] raises and the entry [utf8_hex] returns
    [3f], the digits of the question mark that replaces the character;
    through the facade the first gives the payload back and the second
    gives [3f]. *)
Lemma hex_lower_utf8_hex_counterexample :
  exists f g,
    dict_get (TRANSFORMS sample_externals) (lit "hex_lower") = Some f /\
    dict_get (TRANSFORMS sample_externals) (lit "utf8_hex") = Some g /\
    f [0xD800] = Raise UnicodeEncodeError /\
    g [0xD800] = Ok (lit "3f") /\
    f [0xD800] <> g [0xD800] /\
    transform_payloads sample_externals [[(lit "payload", [0xD800])]]
      (lit "hex_lower") = Ok [[0xD800]] /\
    transform_payloads sample_externals [[(lit "payload", [0xD800])]]
      (lit "utf8_hex") = Ok [lit "3f"].
Proof.
  exists (hex_lower sample_externals), (f_hex sample_externals (lit "utf-8")).
  split; [registry_compute; reflexivity|].
  split; [registry_compute; reflexivity|].
  split; [reflexivity|].
  split; [reflexivity|].
  split; [vm_compute; discriminate|].
  split; vm_compute; reflexivity.
Qed.

(** * Further properties of the transforms *)

Lemma below128_app (a b : list Z) :
  below128 (a ++ b) = below128 a && below128 b.
Proof. apply forallb_app. Qed.

Lemma digits_aux_below (fuel : nat) (base n : Z) (acc : list Z) :
  0 < base -> Forall (fun d => d < base) acc ->
  Forall (fun d => d < base) (digits_aux fuel base n acc).
Proof.
  intros Hb. revert n acc.
  induction fuel as [|fuel IH]; intros n acc Hacc; cbn [digits_aux];
    [exact Hacc|].
  destruct (Z.ltb_spec n base).
  - constructor; assumption.
  - apply IH. constructor; [|exact Hacc].
    apply Z.mod_pos_bound. exact Hb.
Qed.

Lemma format_int_below128 (base : Z) (upcase : bool) (width : nat) (n : Z) :
  0 < base <= 16 -> below128 (format_int base upcase width n) = true.
Proof.
  intros Hb. unfold format_int. cbv zeta. rewrite below128_app.
  apply andb_true_iff. split.
  - unfold below128. apply forallb_forall. intros x Hx.
    apply repeat_spec in Hx. subst x. reflexivity.
  - unfold below128. apply forallb_forall. intros x Hx.
    apply in_map_iff in Hx. destruct Hx as [d [<- Hd]].
    assert (d < base).
    { revert d Hd. apply Forall_forall. unfold digits.
      apply digits_aux_below; [lia | constructor]. }
    apply Z.ltb_lt. unfold digit_char.
    destruct upcase; destruct (Z.ltb_spec d 10); lia.
Qed.

Lemma below128_flat_map {A} (f : A -> list Z) (l : list A) :
  (forall a, below128 (f a) = true) -> below128 (flat_map f l) = true.
Proof.
  intros H. induction l as [|a l IH]; cbn [flat_map]; [reflexivity|].
  rewrite below128_app, H, IH. reflexivity.
Qed.

Lemma below128_join (sep : str) (parts : list str) :
  below128 sep = true -> Forall (fun p => below128 p = true) parts ->
  below128 (join sep parts) = true.
Proof.
  intros Hs. induction 1 as [|p l Hp Hl IH]; [reflexivity|].
  destruct l as [|q l]; [exact Hp|].
  change (join sep (p :: q :: l)) with (p ++ sep ++ join sep (q :: l)).
  rewrite !below128_app, Hp, Hs, IH. reflexivity.
Qed.

Lemma hexlify_below128 (b : bytes) : below128 (binascii.hexlify b) = true.
Proof.
  apply below128_flat_map. intros a. apply format_int_below128. lia.
Qed.

Lemma hex_text_ok (b : bytes) : hex_text b = Ok (binascii.hexlify b).
Proof. apply decode_ascii_ok, hexlify_below128. Qed.

Lemma unicode_escape_below128 (s : str) :
  below128 (flat_map unicode_escape_1 s) = true.
Proof.
  apply below128_flat_map. intros c. unfold unicode_escape_1.
  repeat match goal with
  | |- context [if ?b then _ else _] => destruct b eqn:?
  end; try reflexivity;
  try (rewrite below128_app, format_int_below128 by lia; reflexivity).
  cbn. rewrite andb_true_r. apply andb_true_iff in Heqb0.
  destruct Heqb0 as [_ H]. apply Z.ltb_lt in H. apply Z.ltb_lt. lia.
Qed.

Lemma encode_ascii_ok (e : errors) (s : str) :
  below128 s = true -> encode_with ascii_1 e [63] s = Ok s.
Proof.
  induction s as [|c s IH]; cbn [below128 forallb encode_with];
    [reflexivity|].
  rewrite andb_true_iff. intros [Hc Hs]. rewrite (IH Hs).
  unfold ascii_1. rewrite Hc. reflexivity.
Qed.

Lemma raises_try_except {A} (m : result A) (h : A) :
  raises (try_except m h) = false.
Proof. destruct m; reflexivity. Qed.

Lemma encode_names (X : Externals) (s : str) (e : errors) :
  encode X s (lit "utf-8") e = encode_with utf8_1 e [63] s /\
  encode X s (lit "ascii") e = encode_with ascii_1 e [63] s /\
  encode X s (lit "unicode_escape") e = Ok (flat_map unicode_escape_1 s) /\
  encode X s (lit "utf-16le") e
  = encode_with (utf16_1 false) e (utf16_unit false 63) s /\
  encode X s (lit "utf-16be") e
  = encode_with (utf16_1 true) e (utf16_unit true 63) s.
Proof. repeat split. Qed.

Lemma unicode_escape_python_returns (X : Externals) (s : str) :
  raises (unicode_escape_python X s) = false.
Proof.
  unfold unicode_escape_python.
  rewrite (proj1 (proj2 (proj2 (encode_names X s strict)))). cbn [bind].
  rewrite decode_ascii_ok by apply unicode_escape_below128. reflexivity.
Qed.

Lemma ascii_codes_to_hex_returns (X : Externals) (s : str) :
  raises (ascii_codes_to_hex X s) = false.
Proof.
  unfold ascii_codes_to_hex. cbv zeta.
  rewrite (proj1 (proj2 (encode_names X _ strict))).
  rewrite encode_ascii_ok.
  - cbn [bind]. rewrite hex_text_ok. reflexivity.
  - apply below128_join; [reflexivity|].
    apply Forall_forall. intros p Hp. apply in_map_iff in Hp.
    destruct Hp as [c [<- _]]. apply format_int_below128. lia.
Qed.

Ltac never_raises :=
  intros;
  first
    [ reflexivity
    | apply raises_try_except
    | apply unicode_escape_python_returns
    | apply ascii_codes_to_hex_returns ].

Lemma registry_raise_profile (X : Externals) :
  Forall raise_profile (TRANSFORMS X).
Proof.
  registry_compute.
  repeat (apply Forall_cons;
          [lazymatch goal with
           | |- _ = Raise _ => vm_compute; reflexivity
           | |- _ => never_raises
           end|]).
  apply Forall_nil.
Qed.

Lemma utf8_ok (X : Externals) (s : str) :
  encodable s = true -> utf8 X s = Ok (flat_map utf8_char s).
Proof. intros H. exact (encode_utf8_scalar strict s H). Qed.

Lemma urlsafe_text_ok (b : bytes) :
  decode_ascii (base64.urlsafe_b64encode b) = Ok (base64.urlsafe_b64encode b).
Proof.
  apply decode_ascii_ok. unfold base64.urlsafe_b64encode.
  pose proof (b64encode_ascii b) as H.
  induction (base64.b64encode b) as [|c l IH]; [reflexivity|].
  cbn [forallb map] in *. apply andb_true_iff in H. destruct H as [Hc Hl].
  rewrite (IH Hl), andb_true_r.
  destruct (c =? 43); [reflexivity|]. destruct (c =? 47); [reflexivity|].
  exact Hc.
Qed.

Lemma quoter_scalar (safe : bytes) (b : Z) :
  0 <= b < 256 -> forallb is_scalar (urllib.quoter safe b) = true.
Proof.
  intros Hb.
  assert (H : quoted_scalar b = true)
    by (apply (byte_check quoted_scalar); [vm_compute; reflexivity | exact Hb]).
  unfold quoted_scalar in H. cbn [forallb] in H.
  apply andb_true_iff in H. destruct H as [H1 H2].
  unfold urllib.quoter. destruct (contains b (urllib.always_safe ++ safe)).
  - cbn [forallb]. rewrite H1. reflexivity.
  - exact H2.
Qed.

Lemma quote_ok (s safe : str) :
  encodable s = true ->
  exists q, urllib.quote s safe = Ok q /\ encodable q = true.
Proof.
  intros Hs. destruct s as [|c s]; [exists []; split; reflexivity|].
  unfold urllib.quote. rewrite (encode_utf8_scalar strict _ Hs). cbn [bind].
  eexists. split; [reflexivity|].
  unfold urllib.quote_from_bytes, encodable.
  pose proof (utf8_bytes_range _ Hs) as Hr.
  induction Hr as [|b bs Hb Hbs IH]; [reflexivity|].
  cbn [flat_map]. rewrite forallb_app, IH, quoter_scalar by exact Hb.
  reflexivity.
Qed.

Lemma nested_quote_ok (n : nat) (t : str) :
  encodable t = true ->
  exists r, nested_quote_loop t n = Ok r /\ encodable r = true.
Proof.
  revert t. induction n as [|n IH]; intros t Ht; cbn [nested_quote_loop].
  - exists t. split; [reflexivity | exact Ht].
  - destruct (quote_ok t [] Ht) as [q [-> Hq]]. cbn [bind]. apply IH, Hq.
Qed.

Lemma rot13_encodable (s : str) :
  encodable s = true -> encodable (map codecs.rot13_char s) = true.
Proof.
  unfold encodable. induction s as [|c s IH]; cbn [map forallb];
    [reflexivity|].
  rewrite !andb_true_iff. intros [Hc Hs]. split; [|auto].
  apply is_scalar_bounds in Hc. apply is_scalar_bounds.
  unfold codecs.rot13_char.
  destruct ((65 <=? c) && (c <=? 90)) eqn:E1;
    [|destruct ((97 <=? c) && (c <=? 122)) eqn:E2]; try exact Hc;
    pose proof (Z.mod_pos_bound (c - 65 + 13) 26);
    pose proof (Z.mod_pos_bound (c - 97 + 13) 26); lia.
Qed.

Lemma encode_with_returns (enc1 : Z -> option bytes) (e : errors)
    (subst : bytes) (s : str) :
  forallb (fun c => match enc1 c with Some _ => true | None => false end) s
  = true ->
  raises (encode_with enc1 e subst s) = false.
Proof.
  induction s as [|c s IH]; cbn [forallb encode_with]; [reflexivity|].
  rewrite andb_true_iff. intros [Hc Hs]. specialize (IH Hs).
  destruct (enc1 c); [|discriminate]. cbn [bind].
  destruct (encode_with enc1 e subst s); [reflexivity | discriminate].
Qed.

Lemma utf16_ok (X : Externals) (big : bool) (s : str) :
  encodable s = true ->
  exists b, encode_with (utf16_1 big) strict (utf16_unit big 63) s = Ok b.
Proof.
  intros Hs.
  assert (H : raises (encode_with (utf16_1 big) strict (utf16_unit big 63) s)
              = false).
  { apply encode_with_returns. unfold encodable in Hs.
    rewrite forallb_forall in *. intros c Hc. specialize (Hs c Hc).
    unfold is_scalar in Hs. rewrite andb_true_iff, negb_true_iff in Hs.
    unfold utf16_1. destruct Hs as [_ ->].
    destruct (c <? 0x10000); reflexivity. }
  destruct (encode_with (utf16_1 big) strict (utf16_unit big 63) s);
    [eexists; reflexivity | discriminate].
Qed.

Lemma generate_returns {A B} (f : A -> result B) (l : list A) :
  (forall a, raises (f a) = false) -> raises (generate f l) = false.
Proof.
  intros H. induction l as [|a l IH]; cbn [generate]; [reflexivity|].
  specialize (H a). destruct (f a); [|discriminate]. cbn [bind].
  destruct (generate f l); [reflexivity | discriminate].
Qed.

Section ReturningExternals.

Variable X : Externals.
Hypothesis HX : returning X.

Ltac call_external :=
  match goal with
  | |- context [gzip_compress X ?b ?l] =>
      destruct (gzip_returns X HX b l) as [? ->]
  | |- context [zlib_compress X ?b ?l] =>
      destruct (zlib_returns X HX b l) as [? ->]
  | |- context [bz2_compress X ?b] => destruct (bz2_returns X HX b) as [? ->]
  | |- context [lzma_compress X ?b] => destruct (lzma_returns X HX b) as [? ->]
  | |- context [b32encode X ?b] => destruct (b32_text X HX b) as [? [-> ?]]
  | |- context [b85encode X ?b] => destruct (b85_text X HX b) as [? [-> ?]]
  | |- context [a85encode X ?b] => destruct (a85_text X HX b) as [? [-> ?]]
  | |- context [quopri_encodestring X ?b] =>
      destruct (quopri_text X HX b) as [? [-> ?]]
  end.

Ltac returns_step :=
  first
    [ progress cbn [bind raises]
    | rewrite utf8_ok by first [assumption | apply rot13_encodable; assumption]
    | rewrite b64_text_ok
    | rewrite hex_text_ok
    | rewrite urlsafe_text_ok
    | call_external
    | match goal with
      | Hr : below128 ?r = true |- context [decode_ascii ?r] =>
          rewrite (decode_ascii_ok r Hr)
      | Hq : encodable ?t = true |- context [urllib.quote ?t ?safe] =>
          let H' := fresh "Hq" in
          destruct (quote_ok t safe Hq) as [? [-> H']]
      | Hq : encodable ?t = true |- context [nested_quote_loop ?t ?n] =>
          destruct (nested_quote_ok n t Hq) as [? [-> _]]
      | Hs : encodable ?s = true
        |- context [encode X ?s (lit "utf-16le") strict] =>
          rewrite (proj1 (proj2 (proj2 (proj2 (encode_names X s strict)))));
          destruct (utf16_ok X false s Hs) as [? ->]
      | Hs : encodable ?s = true
        |- context [encode X ?s (lit "utf-16be") strict] =>
          rewrite (proj2 (proj2 (proj2 (proj2 (encode_names X s strict)))));
          destruct (utf16_ok X true s Hs) as [? ->]
      | |- context [if ?c then _ else _] => destruct c
      end ].

Ltac returns_on_encodable_tac :=
  let s := fresh "s" in
  let Hs := fresh "Hs" in
  intros s Hs;
  first
    [ reflexivity
    | apply raises_try_except
    | apply unicode_escape_python_returns
    | apply ascii_codes_to_hex_returns
    | unfold base64_std, base64_urlsafe, base64_nopad, hex_lower, hex_upper,
        backslash_x, url_encode_all, url_encode_safe_slash, double_url,
        gzip_base64, zlib_base64, bz2_base64, lzma_base64, base32_std,
        base85_std, ascii85_std, quoted_printable, base64_custom_chars,
        base64_dot_pad, hex_colon, hex_space, hex_reverse, rot13_base64,
        url_encode_plus, hex_0x_prefix, reverse_bytes_hex,
        utf16le_bom_base64, utf16be_bom_base64, zlib_max_base64,
        gzip_max_base64, base64_no_pad, base85_rot13, base32_no_pad,
        base64_replace_a, qp_custom, hex_then_base64, base64_then_hex,
        zlib_then_hex, lzma_then_hex, url_pct_lower, percent_bytes_lower,
        _nested_quote, urllib.quote_plus, codecs.encode_rot_13, b64_text;
      repeat returns_step; reflexivity ].

Lemma base64_mime_returns : returns_on_encodable (base64_mime X).
Proof.
  intros s Hs. unfold base64_mime.
  match goal with
  | |- raises (bind (generate ?f ?l) _) = false =>
      pose proof (generate_returns f l) as G
  end.
  match type of G with
  | ?P -> _ => assert (HP : P)
  end.
  { intros a. rewrite utf8_ok by exact Hs. cbn [bind]. unfold b64_text.
    rewrite b64_text_ok. reflexivity. }
  specialize (G HP).
  match goal with
  | |- raises (bind ?m _) = false => destruct m; [reflexivity | discriminate]
  end.
Qed.

Lemma registry_returns_on_encodable :
  Forall (fun kv => returns_on_encodable (snd kv)) (TRANSFORMS X).
Proof.
  pose proof base64_mime_returns as Hmime.
  set (P := returns_on_encodable) in *.
  assert (HP : forall f : transform,
             (forall s, encodable s = true -> raises (f s) = false) -> P f)
    by (intros f Hf; exact Hf).
  clearbody P.
  registry_compute.
  repeat (apply Forall_cons;
          [first [exact Hmime | apply HP; returns_on_encodable_tac]|]).
  apply Forall_nil.
Qed.

End ReturningExternals.

Lemma dict_get_some_in {V} (d : dict V) (k : str) (v : V) :
  dict_get d k = Some v -> In (k, v) d.
Proof.
  induction d as [|[k' v'] d IH]; cbn [dict_get]; [discriminate|].
  destruct (str_eqb k' k) eqn:E.
  - apply str_eqb_eq in E. intros [= ->]. left. subst. reflexivity.
  - intros H. right. apply IH, H.
Qed.

(** X1. Every entry of the registry either never raises, on any text and
    whatever the external routines do, or raises [UnicodeEncodeError] on the
    lone surrogate U+D800; the second kind are the 46 names of
    [strict_utf8_names], which encode with the strict handler outside any
    [try]. *)
Theorem registry_raise_dichotomy (X : Externals) (name : str) (f : transform) :
  dict_get (TRANSFORMS X) name = Some f ->
  if existsb (str_eqb name) strict_utf8_names
  then f [0xD800] = Raise UnicodeEncodeError
  else forall s : str, raises (f s) = false.
Proof.
  intros H. apply dict_get_some_in in H.
  exact (proj1 (Forall_forall _ _) (registry_raise_profile X) (name, f) H).
Qed.

Lemma registry_raise_dichotomy_witness :
  dict_get (TRANSFORMS sample_externals) (lit "utf7_hex")
  = Some (f_hex sample_externals (lit "utf-7")) /\
  forall s : str, raises (f_hex sample_externals (lit "utf-7") s) = false.
Proof.
  assert (H : dict_get (TRANSFORMS sample_externals) (lit "utf7_hex")
              = Some (f_hex sample_externals (lit "utf-7")))
    by (registry_compute; reflexivity).
  split; [exact H|].
  exact (registry_raise_dichotomy sample_externals (lit "utf7_hex") _ H).
Defined.

(** X2. When the external routines return (and the text encoders among
    them return ASCII), no entry of the registry raises on a text that UTF-8
    encodes; [transform_payloads] then gives the entry's own result, not the
    payload. *)
Theorem registry_total_on_encodable (X : Externals) (name : str)
    (f : transform) (s : str) :
  returning X ->
  dict_get (TRANSFORMS X) name = Some f ->
  encodable s = true ->
  exists r,
    f s = Ok r /\
    transform_payloads X [[(lit "payload", s)]] name = Ok [r].
Proof.
  intros HX H Hs.
  pose proof (proj1 (Forall_forall _ _) (registry_returns_on_encodable X HX)
                (name, f) (dict_get_some_in _ _ _ H) s Hs) as R.
  cbn [snd] in R. destruct (f s) as [r|e] eqn:E; [|discriminate].
  exists r. split; [reflexivity|].
  unfold transform_payloads. rewrite H. cbn [generate].
  unfold dict_get_default. cbn [dict_get]. rewrite str_eqb_refl, E.
  reflexivity.
Qed.

Lemma quiet_externals_returning : returning quiet_externals.
Proof.
  constructor; intros; eexists;
    first [reflexivity | split; reflexivity].
Qed.

Lemma registry_total_on_encodable_witness :
  exists r,
    base64_std quiet_externals (lit "ab" ++ [0x42F]) = Ok r /\
    transform_payloads quiet_externals [[(lit "payload", lit "ab" ++ [0x42F])]]
      (lit "base64") = Ok [r].
Proof.
  apply (registry_total_on_encodable quiet_externals (lit "base64")
           (base64_std quiet_externals) (lit "ab" ++ [0x42F])
           quiet_externals_returning).
  - registry_compute. reflexivity.
  - reflexivity.
Defined.

Lemma rot13_char_involutive (c : Z) :
  codecs.rot13_char (codecs.rot13_char c) = c.
Proof.
  unfold codecs.rot13_char.
  destruct ((65 <=? c) && (c <=? 90)) eqn:E1.
  - apply andb_true_iff in E1. rewrite Z.leb_le, Z.leb_le in E1.
    pose proof (Z.mod_pos_bound (c - 65 + 13) 26 ltac:(lia)).
    replace ((65 <=? 65 + (c - 65 + 13) mod 26)
             && (65 + (c - 65 + 13) mod 26 <=? 90)) with true
      by (symmetry; apply andb_true_iff; rewrite !Z.leb_le; lia).
    Z.to_euclidean_division_equations; lia.
  - destruct ((97 <=? c) && (c <=? 122)) eqn:E2.
    + apply andb_true_iff in E2. rewrite Z.leb_le, Z.leb_le in E2.
      pose proof (Z.mod_pos_bound (c - 97 + 13) 26 ltac:(lia)).
      replace ((65 <=? 97 + (c - 97 + 13) mod 26)
               && (97 + (c - 97 + 13) mod 26 <=? 90)) with false
        by (symmetry; apply andb_false_iff; right; apply Z.leb_gt; lia).
      replace ((97 <=? 97 + (c - 97 + 13) mod 26)
               && (97 + (c - 97 + 13) mod 26 <=? 122)) with true
        by (symmetry; apply andb_true_iff; rewrite !Z.leb_le; lia).
      Z.to_euclidean_division_equations; lia.
    + rewrite E1, E2. reflexivity.
Qed.

(** X3. [rot13] undoes itself on every text. *)
Theorem rot13_involutive (s : str) :
  (t <- rot13 s ;; rot13 t) = Ok s.
Proof.
  unfold rot13, codecs.encode_rot_13. cbn [bind]. f_equal.
  rewrite map_map. rewrite <- (map_id s) at 2.
  apply map_ext. exact rot13_char_involutive.
Qed.

Lemma join_nil_flat_map {A} (f : A -> str) (l : list A) :
  join [] (map f l) = flat_map f l.
Proof.
  induction l as [|a l IH]; [reflexivity|].
  cbn [map flat_map]. rewrite <- IH.
  destruct (map f l); [cbn [join]; rewrite app_nil_r; reflexivity|].
  reflexivity.
Qed.

Lemma rot47_map (s : str) : rot47 s = Ok (map rot47_char s).
Proof.
  unfold rot47. rewrite join_nil_flat_map. f_equal.
  induction s as [|c s IH]; [reflexivity|].
  cbn [flat_map map]. rewrite IH. unfold rot47_char.
  destruct ((33 <=? c) && (c <=? 126)); reflexivity.
Qed.

Lemma rot47_char_involutive (c : Z) : rot47_char (rot47_char c) = c.
Proof.
  unfold rot47_char.
  destruct ((33 <=? c) && (c <=? 126)) eqn:E1; [|rewrite E1; reflexivity].
  apply andb_true_iff in E1. rewrite Z.leb_le, Z.leb_le in E1.
  pose proof (Z.mod_pos_bound (c - 33 + 47) 94 ltac:(lia)).
  replace ((33 <=? 33 + (c - 33 + 47) mod 94)
           && (33 + (c - 33 + 47) mod 94 <=? 126)) with true
    by (symmetry; apply andb_true_iff; rewrite !Z.leb_le; lia).
  Z.to_euclidean_division_equations; lia.
Qed.

(** X4. [rot47] undoes itself on every text. *)
Theorem rot47_involutive (s : str) :
  (t <- rot47 s ;; rot47 t) = Ok s.
Proof.
  rewrite rot47_map. cbn [bind]. rewrite rot47_map. f_equal.
  rewrite map_map. rewrite <- (map_id s) at 2.
  apply map_ext. exact rot47_char_involutive.
Qed.

Section PercentForms.

Variable q : Z -> str.
Variable g : Z -> Z.
Hypothesis q_form : forall b, 0 <= b < 256 -> percent_form (q b) (g b) = true.

Lemma unquote_form (b : Z) (rest : bytes) :
  0 <= b < 256 ->
  urllib.unquote_to_bytes (q b ++ rest)
  = g b :: urllib.unquote_to_bytes rest /\
  forallb is_ascii (q b) = true.
Proof.
  intros Hb. pose proof (q_form b Hb) as H. unfold percent_form in H.
  destruct (q b) as [|c [|h1 [|h2 [|? ?]]]]; try discriminate.
  - rewrite !andb_true_iff, negb_true_iff, Z.eqb_eq in H.
    destruct H as [[-> Hn] Ha]. cbn [app urllib.unquote_to_bytes forallb].
    rewrite Hn, Ha. split; reflexivity.
  - rewrite !andb_true_iff, !Z.eqb_eq in H.
    destruct H as [[[[[-> H1] H2] Hv] A1] A2].
    cbn [app urllib.unquote_to_bytes forallb].
    rewrite H1, H2, A1, A2, Hv. split; reflexivity.
Qed.

Lemma unquote_forms (bs : bytes) :
  Forall (fun b => 0 <= b < 256) bs ->
  urllib.unquote_to_bytes (flat_map q bs) = map g bs /\
  forallb is_ascii (flat_map q bs) = true.
Proof.
  induction 1 as [|b bs Hb Hbs [IH1 IH2]]; cbn [flat_map map];
    [split; reflexivity|].
  destruct (unquote_form b (flat_map q bs) Hb) as [E A].
  rewrite E, IH1, forallb_app, A, IH2. split; reflexivity.
Qed.

Lemma unquote_percent_bytes (bs : bytes) :
  Forall (fun b => 0 <= b < 256) bs ->
  urllib.unquote (flat_map q bs) = Ok (utf8_decode_replace (map g bs)).
Proof.
  intros Hbs. destruct (unquote_forms bs Hbs) as [E A].
  set (t := flat_map q bs) in *.
  unfold urllib.unquote. destruct (contains 37 t) eqn:Hp; cbn [negb].
  - rewrite (unquote_parts_ascii t [] A), app_nil_r.
    unfold urllib.unquote_run. rewrite rev_involutive, E.
    destruct (rev t) eqn:R; [|reflexivity].
    apply (f_equal (@rev Z)) in R. rewrite rev_involutive in R.
    rewrite R in Hp. discriminate.
  - rewrite (unquote_to_bytes_plain t Hp) in E. rewrite <- E.
    rewrite (utf8_decode_ascii t A). reflexivity.
Qed.

End PercentForms.

Lemma unquote_percent_encoded (q : Z -> str) (x : str) :
  (forall b, 0 <= b < 256 -> percent_form (q b) b = true) ->
  encodable x = true ->
  urllib.unquote (flat_map q (flat_map utf8_char x)) = Ok x.
Proof.
  intros Hq Hx.
  rewrite (unquote_percent_bytes q (fun b => b) Hq _ (utf8_bytes_range _ Hx)).
  rewrite map_id, (utf8_decode_encode x Hx). reflexivity.
Qed.

Lemma quoter_slash_form (b : Z) :
  0 <= b < 256 -> percent_form (urllib.quoter [47] b) b = true.
Proof.
  apply (byte_check (fun b => percent_form (urllib.quoter [47] b) b)).
  vm_compute. reflexivity.
Qed.

Lemma percent_lower_form (b : Z) :
  0 <= b < 256 -> percent_form (37 :: hex02 b) b = true.
Proof.
  apply (byte_check (fun b => percent_form (37 :: hex02 b) b)).
  vm_compute. reflexivity.
Qed.

Lemma percent_upper_form (b : Z) :
  0 <= b < 256 -> percent_form (37 :: HEX02 b) b = true.
Proof.
  apply (byte_check (fun b => percent_form (37 :: HEX02 b) b)).
  vm_compute. reflexivity.
Qed.

(** X5. On the texts that UTF-8 encodes, [url_decode] inverts the three
    other percent encoders of the registry: [url_safe_slash],
    [percent_bytes_lower] and the generated [utf8_percent]. *)
Theorem url_decode_inverts_percent_encoders (X : Externals) (x : str) :
  encodable x = true ->
  (y <- url_encode_safe_slash x ;; url_decode y) = Ok x /\
  (y <- percent_bytes_lower X x ;; url_decode y) = Ok x /\
  (y <- f_pct X (lit "utf-8") x ;; url_decode y) = Ok x.
Proof.
  intros Hx. unfold url_decode. repeat split.
  - unfold url_encode_safe_slash, urllib.quote.
    destruct x as [|c x]; [reflexivity|].
    rewrite (encode_utf8_scalar strict _ Hx). cbn [bind].
    unfold urllib.quote_from_bytes.
    change (filter (fun c0 => c0 <? 128) (lit "/")) with [47].
    rewrite (unquote_percent_encoded _ _ quoter_slash_form Hx). reflexivity.
  - unfold percent_bytes_lower. rewrite (utf8_ok X x Hx). cbn [bind].
    rewrite join_nil_flat_map.
    rewrite (unquote_percent_encoded _ _ percent_lower_form Hx). reflexivity.
  - unfold f_pct.
    rewrite (proj1 (encode_names X x replace_errors)).
    rewrite (encode_utf8_scalar replace_errors x Hx). cbn [bind try_except].
    rewrite join_nil_flat_map.
    rewrite (unquote_percent_encoded _ _ percent_upper_form Hx). reflexivity.
Qed.

Lemma url_decode_inverts_percent_encoders_witness :
  percent_bytes_lower sample_externals (lit "a/" ++ [0x42F])
  = Ok (lit "%61%2f%d0%af") /\
  (y <- percent_bytes_lower sample_externals (lit "a/" ++ [0x42F]) ;;
   url_decode y) = Ok (lit "a/" ++ [0x42F]).
Proof.
  split; [reflexivity|].
  apply (url_decode_inverts_percent_encoders sample_externals
           (lit "a/" ++ [0x42F])).
  reflexivity.
Defined.

Lemma nested_quote_loop_snoc (n : nat) (t : str) :
  nested_quote_loop t (S n)
  = (r <- nested_quote_loop t n ;; urllib.quote r []).
Proof.
  revert t. induction n as [|n IH]; intros t.
  - cbn [nested_quote_loop bind]. destruct (urllib.quote t []); reflexivity.
  - change (nested_quote_loop t (S (S n)))
      with (t' <- urllib.quote t [] ;; nested_quote_loop t' (S n)).
    change (nested_quote_loop t (S n))
      with (t' <- urllib.quote t [] ;; nested_quote_loop t' n).
    destruct (urllib.quote t []) as [t'|e]; [|reflexivity].
    cbn [bind]. apply IH.
Qed.

Lemma url_decode_quote (r : str) :
  encodable r = true -> (y <- urllib.quote r [] ;; url_decode y) = Ok r.
Proof.
  intros Hr. pose proof (unquote_quote r Hr) as H. unfold url_decode.
  destruct (urllib.quote r []) as [y|e]; [|discriminate].
  cbn [bind] in *. rewrite H. reflexivity.
Qed.

Lemma nested_quote_decode (n : nat) (x : str) :
  encodable x = true ->
  (y <- nested_quote_loop x n ;; url_decode_times n y) = Ok x.
Proof.
  intros Hx. induction n as [|n IH]; [reflexivity|].
  rewrite nested_quote_loop_snoc.
  destruct (nested_quote_ok n x Hx) as [r [Er Hr]]. rewrite Er in *.
  cbn [bind] in *. pose proof (url_decode_quote r Hr) as D.
  destruct (urllib.quote r []) as [y|e]; [|discriminate].
  cbn [bind url_decode_times] in *. rewrite D. cbn [bind]. exact IH.
Qed.

(** X6. On the texts that UTF-8 encodes, quoting [n] times and then
    applying [url_decode] [n] times gives the text back; [double_url] is the
    case [n = 2]. *)
Theorem nested_quoting_decodes (n : nat) (x : str) :
  encodable x = true ->
  (y <- _nested_quote x (Z.of_nat n) ;; url_decode_times n y) = Ok x /\
  double_url x = _nested_quote x 2.
Proof.
  intros Hx. split.
  - unfold _nested_quote. rewrite Nat2Z.id. apply nested_quote_decode, Hx.
  - change (_nested_quote x 2)
      with (t <- urllib.quote x [] ;; t' <- urllib.quote t [] ;; Ok t').
    unfold double_url.
    destruct (urllib.quote x []) as [q|e]; [|reflexivity]. cbn [bind].
    destruct (urllib.quote q []); reflexivity.
Qed.

Lemma nested_quoting_decodes_witness :
  _nested_quote (lit "a b") 3 = Ok (lit "a%252520b") /\
  (y <- _nested_quote (lit "a b") 3 ;; url_decode_times 3 y) = Ok (lit "a b").
Proof.
  split; [reflexivity|].
  apply (nested_quoting_decodes 3 (lit "a b")). reflexivity.
Defined.

Lemma plus_quoter_form (b : Z) :
  0 <= b < 256 -> percent_form (plus_quoter b) (space_to_plus b) = true.
Proof.
  apply (byte_check (fun b => percent_form (plus_quoter b) (space_to_plus b))).
  vm_compute. reflexivity.
Qed.

Lemma replace_flat_map {A} (c : Z) (new : str) (f : A -> str) (l : list A) :
  replace c new (flat_map f l) = flat_map (fun a => replace c new (f a)) l.
Proof.
  unfold replace. induction l as [|a l IH]; [reflexivity|].
  cbn [flat_map]. rewrite flat_map_app, IH. reflexivity.
Qed.

Lemma replace_char_map (c d : Z) (s : str) :
  replace c [d] s = map (fun x => if x =? c then d else x) s.
Proof.
  unfold replace. induction s as [|x s IH]; [reflexivity|].
  cbn [flat_map map]. rewrite IH. destruct (x =? c); reflexivity.
Qed.

Lemma replace_absent (c : Z) (new s : str) :
  contains c s = false -> replace c new s = s.
Proof.
  unfold contains, replace.
  induction s as [|x s IH]; cbn [existsb flat_map]; [reflexivity|].
  rewrite orb_false_iff. intros [Hx Hs]. rewrite Z.eqb_sym, Hx, (IH Hs).
  reflexivity.
Qed.

Lemma utf8_char_space_to_plus (c : Z) :
  is_scalar c = true ->
  map space_to_plus (utf8_char c) = utf8_char (space_to_plus c) /\
  is_scalar (space_to_plus c) = true.
Proof.
  intros H. unfold space_to_plus at 2 3.
  destruct (Z.eqb_spec c 32) as [-> | Hc]; [split; reflexivity|].
  split; [|exact H]. apply is_scalar_bounds in H. unfold utf8_char.
  assert (S : forall b, b <> 32 -> space_to_plus b = b)
    by (intros b Hb; unfold space_to_plus;
        destruct (Z.eqb_spec b 32); [contradiction | reflexivity]).
  destruct (Z.ltb_spec c 0x80); [|destruct (Z.ltb_spec c 0x800);
    [|destruct (Z.ltb_spec c 0x10000)]]; cbn [map];
    rewrite !S; try reflexivity; try assumption;
    Z.to_euclidean_division_equations; lia.
Qed.

Lemma utf8_space_to_plus (x : str) :
  encodable x = true ->
  map space_to_plus (flat_map utf8_char x)
  = flat_map utf8_char (map space_to_plus x) /\
  encodable (map space_to_plus x) = true.
Proof.
  unfold encodable.
  induction x as [|c x IH]; cbn [flat_map map forallb]; [split; reflexivity|].
  rewrite andb_true_iff. intros [Hc Hx].
  destruct (utf8_char_space_to_plus c Hc) as [E S].
  destruct (IH Hx) as [IH1 IH2].
  rewrite map_app, E, IH1, S, IH2. split; reflexivity.
Qed.

(** X7. On the texts that UTF-8 encodes, [url_decode] after
    [url_encode_plus] gives the text with every space turned into [+]: the
    text itself exactly when it has no space. *)
Theorem url_decode_after_plus (x : str) :
  encodable x = true ->
  (y <- url_encode_plus x ;; url_decode y) = Ok (replace 32 [43] x).
Proof.
  intros Hx. unfold url_encode_plus, urllib.quote_plus.
  destruct (contains 32 x) eqn:Hsp; cbn [negb].
  - unfold urllib.quote. destruct x as [|c x]; [discriminate|].
    rewrite (encode_utf8_scalar strict _ Hx). cbn [bind].
    unfold urllib.quote_from_bytes.
    change (filter (fun c0 => c0 <? 128) [32]) with [32].
    rewrite replace_flat_map. fold plus_quoter.
    change (fun a => plus_quoter a) with plus_quoter.
    unfold url_decode.
    rewrite (unquote_percent_bytes plus_quoter space_to_plus
               plus_quoter_form _ (utf8_bytes_range _ Hx)).
    destruct (utf8_space_to_plus _ Hx) as [E S].
    rewrite E, (utf8_decode_encode _ S). cbn [try_except].
    rewrite replace_char_map. reflexivity.
  - rewrite (replace_absent 32 [43] x Hsp).
    apply url_decode_quote, Hx.
Qed.

Lemma url_decode_after_plus_witness :
  url_encode_plus (lit "a b+c") = Ok (lit "a+b%2Bc") /\
  (y <- url_encode_plus (lit "a b+c") ;; url_decode y) = Ok (lit "a+b+c").
Proof.
  split; [reflexivity|].
  apply (url_decode_after_plus (lit "a b+c")). reflexivity.
Defined.

Lemma markup_free_app (a b : str) :
  markup_free (a ++ b) = markup_free a && markup_free b.
Proof. apply forallb_app. Qed.

Lemma contains_replace_same (c : Z) (new s : str) :
  contains c new = false -> contains c (replace c new s) = false.
Proof.
  intros Hn. unfold contains, replace in *.
  induction s as [|x s IH]; [reflexivity|].
  cbn [flat_map]. rewrite existsb_app, IH, orb_false_r.
  destruct (Z.eqb_spec x c) as [-> | Hx]; [exact Hn|].
  cbn [existsb]. rewrite orb_false_r. apply Z.eqb_neq. congruence.
Qed.

Lemma contains_replace_other (c old : Z) (new s : str) :
  contains c new = false -> contains c s = false ->
  contains c (replace old new s) = false.
Proof.
  intros Hn. unfold contains, replace in *.
  induction s as [|x s IH]; [reflexivity|].
  cbn [flat_map existsb]. rewrite orb_false_iff. intros [Hx Hs].
  rewrite existsb_app, (IH Hs), orb_false_r.
  destruct (x =? old); [exact Hn|]. cbn [existsb]. rewrite Hx. reflexivity.
Qed.

Lemma markup_free_contains (t : str) :
  markup_free t = true <->
  contains 60 t = false /\ contains 62 t = false /\
  contains 34 t = false /\ contains 39 t = false.
Proof.
  unfold markup_free, contains.
  induction t as [|x t IH]; cbn [forallb existsb].
  - split; [repeat split | reflexivity].
  - rewrite andb_true_iff, IH, negb_true_iff, !orb_false_iff.
    rewrite (Z.eqb_sym x 60), (Z.eqb_sym x 62), (Z.eqb_sym x 34),
      (Z.eqb_sym x 39). tauto.
Qed.

Lemma html_escape_markup_free (s : str) : markup_free (html.escape s) = true.
Proof.
  apply markup_free_contains. unfold html.escape. cbv zeta.
  repeat split.
  - do 3 (apply contains_replace_other; [reflexivity|]).
    apply contains_replace_same. reflexivity.
  - do 2 (apply contains_replace_other; [reflexivity|]).
    apply contains_replace_same. reflexivity.
  - apply contains_replace_other; [reflexivity|].
    apply contains_replace_same. reflexivity.
  - apply contains_replace_same. reflexivity.
Qed.

Lemma digits_aux_range (fuel : nat) (base n : Z) (acc : list Z) :
  0 < base -> 0 <= n -> Forall (fun d => 0 <= d < base) acc ->
  Forall (fun d => 0 <= d < base) (digits_aux fuel base n acc).
Proof.
  intros Hb. revert n acc.
  induction fuel as [|fuel IH]; intros n acc Hn Hacc; cbn [digits_aux];
    [exact Hacc|].
  destruct (Z.ltb_spec n base).
  - constructor; [lia | assumption].
  - apply IH.
    + apply Z.div_pos; lia.
    + constructor; [|exact Hacc]. apply Z.mod_pos_bound. exact Hb.
Qed.

Lemma format_int_numeral (base : Z) (upcase : bool) (width : nat) (n : Z) :
  0 < base <= 16 -> 0 <= n ->
  forallb is_numeral_char (format_int base upcase width n) = true.
Proof.
  intros Hb Hn. unfold format_int. cbv zeta. rewrite forallb_app.
  apply andb_true_iff. split.
  - apply forallb_forall. intros x Hx.
    apply repeat_spec in Hx. subst x. reflexivity.
  - apply forallb_forall. intros x Hx.
    apply in_map_iff in Hx. destruct Hx as [d [<- Hd]].
    assert (0 <= d < base).
    { revert d Hd. apply Forall_forall. unfold digits.
      apply digits_aux_range; [lia | exact Hn | constructor]. }
    unfold is_numeral_char, digit_char.
    destruct upcase; destruct (Z.ltb_spec d 10);
      rewrite !orb_true_iff, !andb_true_iff, !Z.leb_le; lia.
Qed.

Lemma numeral_markup_free (t : str) :
  forallb is_numeral_char t = true -> markup_free t = true.
Proof.
  unfold markup_free. intros H. rewrite forallb_forall in *.
  intros c Hc. specialize (H c Hc). unfold is_numeral_char in H.
  rewrite !orb_true_iff, !andb_true_iff, !Z.leb_le in H.
  unfold contains. cbn [existsb]. rewrite negb_true_iff, !orb_false_iff.
  rewrite !Z.eqb_neq. lia.
Qed.

Lemma numeral_below128 (t : str) :
  forallb is_numeral_char t = true -> below128 t = true.
Proof.
  unfold below128. intros H. rewrite forallb_forall in *.
  intros c Hc. specialize (H c Hc). unfold is_numeral_char in H.
  rewrite !orb_true_iff, !andb_true_iff, !Z.leb_le in H.
  apply Z.ltb_lt. lia.
Qed.

Lemma markup_free_flat_map {A} (f : A -> str) (l : list A) :
  (forall a, In a l -> markup_free (f a) = true) ->
  markup_free (flat_map f l) = true.
Proof.
  induction l as [|a l IH]; intros H; cbn [flat_map]; [reflexivity|].
  rewrite markup_free_app, (H a (or_introl eq_refl)), IH; [reflexivity|].
  intros b Hb. apply H. right. exact Hb.
Qed.

Lemma html_special_nonneg (ch : Z) :
  (ch >? 127) || contains ch html_specials = true -> 0 <= ch.
Proof.
  unfold html_specials, contains.
  cbn [lit map list_ascii_of_string app existsb].
  rewrite !orb_true_iff, Z.gtb_ltb, Z.ltb_lt, !Z.eqb_eq.
  cbn. lia.
Qed.

Lemma html_plain_markup_free (ch : Z) :
  (ch >? 127) || contains ch html_specials = false ->
  markup_free [ch] = true /\ below128 [ch] = true.
Proof.
  unfold html_specials, contains, markup_free, below128.
  cbn [lit map list_ascii_of_string app existsb forallb].
  rewrite !orb_false_iff, Z.gtb_ltb, Z.ltb_ge, !Z.eqb_neq.
  cbn. intros H. rewrite !andb_true_r, negb_true_iff, !orb_false_iff.
  rewrite !Z.eqb_neq, Z.ltb_lt. lia.
Qed.

(** X8. The four HTML escapes return, on every text, a text without
    less-than, greater-than, double quote or apostrophe; the two numeric
    ones return ASCII only. *)
Theorem html_escapes_markup_free (s : str) :
  (exists t, html_escape_named s = Ok t /\ markup_free t = true) /\
  (exists t, html_numeric_dec s = Ok t /\ markup_free t = true
             /\ below128 t = true) /\
  (exists t, html_numeric_hex s = Ok t /\ markup_free t = true
             /\ below128 t = true) /\
  (exists t, html_escape_num_only s = Ok t /\ markup_free t = true).
Proof.
  split; [|split; [|split]].
  - eexists. split; [reflexivity | apply html_escape_markup_free].
  - eexists. split; [reflexivity|]. rewrite join_nil_flat_map. split.
    + apply markup_free_flat_map. intros ch _.
      destruct ((ch >? 127) || contains ch html_specials) eqn:E.
      * unfold str_of_int. rewrite !markup_free_app.
        match goal with
        | |- context [markup_free (format_int ?b ?u ?w ?n)] =>
            rewrite (numeral_markup_free (format_int b u w n));
            [reflexivity|]
        end.
        apply format_int_numeral; [lia | exact (html_special_nonneg ch E)].
      * apply html_plain_markup_free, E.
    + apply below128_flat_map. intros ch.
      destruct ((ch >? 127) || contains ch html_specials) eqn:E.
      * unfold str_of_int.
        rewrite !below128_app, format_int_below128 by lia. reflexivity.
      * apply html_plain_markup_free, E.
  - eexists. split; [reflexivity|]. rewrite join_nil_flat_map. split.
    + apply markup_free_flat_map. intros ch _.
      destruct ((ch >? 127) || contains ch html_specials) eqn:E.
      * unfold str_of_int. rewrite !markup_free_app.
        match goal with
        | |- context [markup_free (format_int ?b ?u ?w ?n)] =>
            rewrite (numeral_markup_free (format_int b u w n));
            [reflexivity|]
        end.
        apply format_int_numeral; [lia | exact (html_special_nonneg ch E)].
      * apply html_plain_markup_free, E.
    + apply below128_flat_map. intros ch.
      destruct ((ch >? 127) || contains ch html_specials) eqn:E.
      * unfold str_of_int.
        rewrite !below128_app, format_int_below128 by lia. reflexivity.
      * apply html_plain_markup_free, E.
  - eexists. split; [reflexivity|]. rewrite join_nil_flat_map.
    apply markup_free_flat_map. intros c _.
    destruct (contains c [38; 60; 62; 34; 39]) eqn:E.
    + unfold str_of_int. rewrite !markup_free_app.
      match goal with
      | |- context [markup_free (format_int ?b ?u ?w ?n)] =>
          rewrite (numeral_markup_free (format_int b u w n)); [reflexivity|]
      end.
      apply format_int_numeral; [lia|].
      unfold contains in E. cbn [existsb] in E.
      rewrite !orb_true_iff, !Z.eqb_eq in E. lia.
    + unfold markup_free, contains in *. cbn [forallb existsb] in *.
      rewrite !orb_false_iff in E. rewrite andb_true_r, negb_true_iff.
      rewrite !orb_false_iff. tauto.
Qed.

Lemma sym_not_pad (i : Z) : (base64.sym i =? 61) = false.
Proof.
  unfold base64.sym.
  destruct (nth_in_or_default (Z.to_nat i) base64.alphabet 0) as [H | ->];
    [|reflexivity].
  revert H. generalize (nth (Z.to_nat i) base64.alphabet 0).
  apply Forall_forall. vm_compute. repeat constructor.
Qed.

Lemma b64encode_shape (b : bytes) :
  exists core k,
    base64.b64encode b = core ++ repeat 61 k /\
    contains 61 core = false /\ (k <= 2)%nat /\
    (Nat.modulo (List.length core + k) 4 = 0)%nat.
Proof.
  induction b as [|x|x y|x y z l IH] using list_ind3.
  - exists [], 0%nat. repeat split; first [reflexivity | lia].
  - exists [base64.sym (x / 4); base64.sym (x mod 4 * 16)], 2%nat.
    cbn [base64.b64encode app repeat contains existsb].
    rewrite !(Z.eqb_sym 61), !sym_not_pad.
    repeat split; first [reflexivity | lia].
  - exists [base64.sym (x / 4); base64.sym (x mod 4 * 16 + y / 16);
            base64.sym (y mod 16 * 4)], 1%nat.
    cbn [base64.b64encode app repeat contains existsb].
    rewrite !(Z.eqb_sym 61), !sym_not_pad.
    repeat split; first [reflexivity | lia].
  - destruct IH as [core [k [E [Hc [Hk Hm]]]]].
    exists (base64.sym (x / 4) :: base64.sym (x mod 4 * 16 + y / 16)
            :: base64.sym (y mod 16 * 4 + z / 64) :: base64.sym (z mod 64)
            :: core), k.
    cbn [base64.b64encode]. rewrite E. split; [reflexivity|].
    split; [|split; [exact Hk|]].
    + unfold contains in *. cbn [existsb].
      rewrite !(Z.eqb_sym 61), !sym_not_pad, Hc. reflexivity.
    + cbn [List.length].
      replace (S (S (S (S (List.length core)))) + k)%nat
        with (List.length core + k + 1 * 4)%nat by lia.
      rewrite Nat.Div0.mod_add. exact Hm.
Qed.

Lemma drop_leading_repeat (c : Z) (k : nat) (l : list Z) :
  drop_leading c (repeat c k ++ l) = drop_leading c l.
Proof.
  induction k as [|k IH]; [reflexivity|].
  cbn [repeat app drop_leading]. rewrite Z.eqb_refl. exact IH.
Qed.

Lemma drop_leading_absent (c : Z) (l : list Z) :
  contains c l = false -> drop_leading c l = l.
Proof.
  unfold contains. destruct l as [|x l]; [reflexivity|].
  cbn [existsb drop_leading]. rewrite orb_false_iff. intros [Hx _].
  rewrite Z.eqb_sym, Hx. reflexivity.
Qed.

Lemma contains_rev (c : Z) (l : list Z) : contains c (rev l) = contains c l.
Proof.
  unfold contains. induction l as [|x l IH]; [reflexivity|].
  cbn [rev existsb]. rewrite existsb_app, IH. cbn [existsb].
  rewrite orb_false_r. apply orb_comm.
Qed.

Lemma rev_repeat (c : Z) (k : nat) : rev (repeat c k) = repeat c k.
Proof.
  induction k as [|k IH]; [reflexivity|].
  cbn [repeat rev]. rewrite IH. clear IH.
  induction k as [|k IH]; [reflexivity|].
  cbn [repeat app]. rewrite IH. reflexivity.
Qed.

Lemma rstrip_padding (c : Z) (core : str) (k : nat) :
  contains c core = false -> rstrip c (core ++ repeat c k) = core.
Proof.
  intros H. rewrite rstrip_strip_trailing. unfold strip_trailing.
  rewrite rev_app_distr, rev_repeat, drop_leading_repeat.
  rewrite drop_leading_absent by (rewrite contains_rev; exact H).
  apply rev_involutive.
Qed.

(** X9. On the texts that UTF-8 encodes, [base64] is a core without [=]
    followed by at most two [=], its length a multiple of four;
    [base64_nopad] is the core, and [base64_dot_pad] is the core followed by
    as many dots. *)
Theorem base64_padding (X : Externals) (s : str) :
  encodable s = true ->
  exists core k,
    base64_std X s = Ok (core ++ repeat 61 k) /\
    base64_nopad X s = Ok core /\
    base64_dot_pad X s = Ok (core ++ repeat 46 k) /\
    contains 61 core = false /\ (k <= 2)%nat /\
    (Nat.modulo (List.length core + k) 4 = 0)%nat.
Proof.
  intros Hs.
  destruct (b64encode_shape (flat_map utf8_char s))
    as [core [k [E [Hc [Hk Hm]]]]].
  exists core, k.
  unfold base64_std, base64_nopad, base64_dot_pad, b64_text.
  rewrite (utf8_ok X s Hs). cbn [bind]. rewrite b64_text_ok. cbn [bind].
  rewrite E, (rstrip_padding 61 core k Hc).
  repeat split; try assumption.
  unfold ljust. rewrite length_app, repeat_length.
  replace (List.length core + k - List.length core)%nat with k by lia.
  reflexivity.
Qed.

Lemma base64_padding_witness :
  exists core k,
    base64_std sample_externals (lit "ab") = Ok (core ++ repeat 61 k) /\
    base64_nopad sample_externals (lit "ab") = Ok core /\
    base64_dot_pad sample_externals (lit "ab") = Ok (core ++ repeat 46 k) /\
    core = lit "YWI" /\ k = 1%nat.
Proof.
  destruct (base64_padding sample_externals (lit "ab") eq_refl)
    as [core [k [E1 [E2 [E3 _]]]]].
  exists core, k. split; [exact E1|]. split; [exact E2|]. split; [exact E3|].
  assert (Ec : Ok core = Ok (lit "YWI")) by (rewrite <- E2; reflexivity).
  injection Ec as ->. split; [reflexivity|].
  assert (Ek : Ok (lit "YWI" ++ repeat 61 k) = Ok (lit "YWI="))
    by (rewrite <- E1; reflexivity).
  injection Ek as Ek.
  destruct k as [|[|k]]; [discriminate | reflexivity | discriminate].
Defined.

Lemma hex_pair (b : Z) :
  0 <= b < 256 ->
  List.length (hex02 b) = 2%nat /\ contains 58 (hex02 b) = false
  /\ contains 32 (hex02 b) = false.
Proof.
  intros Hb.
  assert (H : hex_pair_checked b = true)
    by (apply (byte_check hex_pair_checked);
        [vm_compute; reflexivity | exact Hb]).
  unfold hex_pair_checked in H.
  rewrite !andb_true_iff, !negb_true_iff, Nat.eqb_eq in H. tauto.
Qed.

Lemma replace_join_sep (c : Z) (parts : list str) :
  Forall (fun p => contains c p = false) parts ->
  replace c [] (join [c] parts) = List.concat parts.
Proof.
  induction 1 as [|p l Hp Hl IH]; [reflexivity|].
  destruct l as [|p' l].
  - cbn [join List.concat]. rewrite app_nil_r. apply replace_absent, Hp.
  - change (join [c] (p :: p' :: l)) with (p ++ [c] ++ join [c] (p' :: l)).
    unfold replace in *. rewrite !flat_map_app. cbn [List.concat] in *.
    rewrite IH. cbn [flat_map]. rewrite Z.eqb_refl.
    fold (replace c [] p). rewrite (replace_absent c [] p Hp). reflexivity.
Qed.

Lemma concat_map_flat_map {A} (f : A -> str) (l : list A) :
  List.concat (map f l) = flat_map f l.
Proof. symmetry. apply flat_map_concat_map. Qed.

Lemma length_flat_map_pairs (bs : bytes) :
  Forall (fun b => 0 <= b < 256) bs ->
  List.length (flat_map hex02 bs) = (2 * List.length bs)%nat.
Proof.
  induction 1 as [|b bs Hb Hbs IH]; [reflexivity|].
  cbn [flat_map List.length]. rewrite length_app, IH.
  destruct (hex_pair b Hb) as [-> _]. lia.
Qed.

(** X10. On the texts that UTF-8 encodes, [hex_lower] has two digits per
    UTF-8 byte, [hex_upper] is its upper case, and [hex_colon] and
    [hex_space] are [hex_lower] once their separator is removed. *)
Theorem hex_family_digits (X : Externals) (s : str) :
  encodable s = true ->
  exists h,
    hex_lower X s = Ok h /\
    List.length h = (2 * List.length (flat_map utf8_char s))%nat /\
    hex_upper X s = Ok (upper h) /\
    (exists t, hex_colon X s = Ok t /\ replace 58 [] t = h) /\
    (exists t, hex_space X s = Ok t /\ replace 32 [] t = h).
Proof.
  intros Hs. pose proof (utf8_bytes_range s Hs) as Hr.
  exists (binascii.hexlify (flat_map utf8_char s)).
  unfold hex_lower, hex_upper, hex_colon, hex_space.
  rewrite (utf8_ok X s Hs). cbn [bind]. rewrite hex_text_ok. cbn [bind].
  split; [reflexivity|].
  split; [apply length_flat_map_pairs, Hr|].
  split; [reflexivity|].
  split; eexists; (split; [reflexivity|]);
    rewrite replace_join_sep, concat_map_flat_map;
    try reflexivity;
    apply Forall_forall; intros p Hp; apply in_map_iff in Hp;
    destruct Hp as [b [<- Hb]];
    apply (proj1 (Forall_forall _ _) Hr) in Hb;
    apply (hex_pair b Hb).
Qed.

Lemma hex_family_digits_witness :
  exists h,
    hex_lower sample_externals (lit "A" ++ [0x42F]) = Ok h /\
    h = lit "41d0af" /\
    hex_colon sample_externals (lit "A" ++ [0x42F]) = Ok (lit "41:d0:af").
Proof.
  destruct (hex_family_digits sample_externals (lit "A" ++ [0x42F]) eq_refl)
    as [h [E _]].
  exists h. split; [exact E|].
  assert (Eh : Ok h = Ok (lit "41d0af")) by (rewrite <- E; reflexivity).
  injection Eh as ->. split; reflexivity.
Defined.




Lemma replace_nil_filter (c : Z) (s : str) :
  replace c [] s = filter (fun x => negb (x =? c)) s.
Proof.
  unfold replace. induction s as [|x s IH]; [reflexivity|].
  cbn [flat_map filter]. rewrite IH. destruct (x =? c); reflexivity.
Qed.

Lemma remove_whitespace_filter (s : str) :
  remove_whitespace s = Ok (filter (fun c => negb (is_blank c)) s).
Proof.
  unfold remove_whitespace. rewrite !replace_nil_filter. f_equal.
  induction s as [|x s IH]; [reflexivity|].
  cbn [filter]. unfold is_blank.
  destruct (x =? 32); cbn [negb orb]; [exact IH|].
  cbn [filter]. destruct (x =? 9); cbn [negb]; rewrite IH; reflexivity.
Qed.

(** X12. [remove_whitespace] returns a text without space or tab, leaves
    such a text unchanged, and so gives the same result when applied
    twice. *)
Theorem remove_whitespace_idempotent (s : str) :
  exists t,
    remove_whitespace s = Ok t /\
    remove_whitespace t = Ok t /\
    existsb is_blank t = false /\
    (existsb is_blank s = false -> t = s).
Proof.
  exists (filter (fun c => negb (is_blank c)) s).
  rewrite !remove_whitespace_filter.
  split; [reflexivity|]. split; [|split].
  - f_equal. induction s as [|x s IH]; [reflexivity|].
    cbn [filter]. destruct (is_blank x) eqn:E; cbn [negb filter];
      [exact IH|]. rewrite E. cbn [negb]. rewrite IH. reflexivity.
  - induction s as [|x s IH]; [reflexivity|].
    cbn [filter]. destruct (is_blank x) eqn:E; cbn [negb existsb];
      [exact IH|]. rewrite E, IH. reflexivity.
  - induction s as [|x s IH]; [reflexivity|].
    cbn [existsb filter]. rewrite orb_false_iff. intros [-> Hs].
    cbn [negb]. rewrite (IH Hs). reflexivity.
Qed.

Lemma numeral_printable (t : str) :
  forallb is_numeral_char t = true -> forallb printable t = true.
Proof.
  intros H. rewrite forallb_forall in *.
  intros c Hc. specialize (H c Hc). unfold is_numeral_char in H.
  rewrite !orb_true_iff, !andb_true_iff, !Z.leb_le in H.
  unfold printable. rewrite andb_true_iff, Z.leb_le, Z.ltb_lt. lia.
Qed.

(** X13. [js_escape] returns printable ASCII (codes 32 to 126) on every
    Python text. *)
Theorem js_escape_printable (s : str) :
  well_formed s = true ->
  exists t, js_escape s = Ok t /\ forallb printable t = true.
Proof.
  intros Hs. eexists. split; [reflexivity|].
  rewrite join_nil_flat_map.
  unfold well_formed in Hs. rewrite forallb_forall in Hs.
  induction s as [|ch s IH]; [reflexivity|].
  cbn [flat_map]. rewrite forallb_app. apply andb_true_iff. split.
  - assert (Hc : 0 <= ch).
    { specialize (Hs ch (or_introl eq_refl)).
      apply andb_true_iff in Hs. destruct Hs as [Hs _].
      apply Z.leb_le. exact Hs. }
    destruct (ch =? 10); [reflexivity|].
    destruct (ch =? 13); [reflexivity|].
    destruct (ch =? 9); [reflexivity|].
    destruct (contains ch [39; 34; 92]) eqn:E.
    + unfold contains in E. cbn [existsb] in E.
      rewrite !orb_true_iff, !Z.eqb_eq in E.
      cbn [forallb]. unfold printable.
      rewrite !andb_true_iff, !Z.leb_le, !Z.ltb_lt. lia.
    + destruct ((32 <=? ch) && (ch <? 127)) eqn:P.
      * cbn [forallb]. unfold printable. rewrite P. reflexivity.
      * rewrite forallb_app. apply andb_true_iff. split; [reflexivity|].
        apply numeral_printable, format_int_numeral; lia.
  - apply IH. intros c Hc. apply Hs. right. exact Hc.
Qed.

Lemma js_escape_printable_witness :
  exists t,
    js_escape (lit "a'" ++ [10; 0x42F; 0x1F600]) = Ok t /\
    forallb printable t = true.
Proof.
  apply (js_escape_printable (lit "a'" ++ [10; 0x42F; 0x1F600])).
  reflexivity.
Defined.

Lemma generate_ok_map {A B} (f : A -> result B) (g : A -> B) (l : list A) :
  (forall a, f a = Ok (g a)) -> generate f l = Ok (map g l).
Proof.
  intros H. induction l as [|a l IH]; [reflexivity|].
  cbn [generate map]. rewrite H, IH. reflexivity.
Qed.

Lemma firstn_plus_skipn {A} (a b : nat) (l : list A) :
  firstn (a + b) l = firstn a l ++ firstn b (skipn a l).
Proof.
  revert l. induction a as [|a IH]; intros l; [reflexivity|].
  destruct l as [|x l]; [rewrite !firstn_nil; reflexivity|].
  cbn [Nat.add firstn skipn app]. rewrite IH. reflexivity.
Qed.

Lemma concat_slices (b64 : str) (m : nat) :
  List.concat (map (fun i => slice i (i + 76) b64)
                 (map (fun k => 76 * k)%nat (seq 0 m)))
  = firstn (76 * m) b64.
Proof.
  induction m as [|m IH]; [reflexivity|].
  rewrite seq_S, !map_app, concat_app, IH. cbn [map List.concat Nat.add].
  rewrite app_nil_r. unfold slice.
  replace (76 * m + 76 - 76 * m)%nat with 76%nat by lia.
  replace (76 * S m)%nat with (76 * m + 76)%nat by lia.
  symmetry. apply firstn_plus_skipn.
Qed.

(** X14. On a text of [n] characters that UTF-8 encodes, [base64_mime]
    joins with newlines the ceiling of [2n / 76] lines of at most 76
    characters; together the lines are the first [76 * lines] characters of
    the Base64 text, so the rest of a longer encoding is dropped. *)
Theorem base64_mime_lines (X : Externals) (s : str) :
  encodable s = true ->
  exists parts,
    base64_mime X s = Ok (join [10] parts) /\
    List.length parts = ((List.length s * 2 + 75) / 76)%nat /\
    Forall (fun p => (List.length p <= 76)%nat) parts /\
    List.concat parts
    = firstn (76 * List.length parts)
        (base64.b64encode (flat_map utf8_char s)).
Proof.
  intros Hs. unfold base64_mime.
  set (b64 := base64.b64encode (flat_map utf8_char s)).
  exists (map (fun i => slice i (i + 76) b64)
            (range_0_step76 (List.length s * 2))).
  rewrite (generate_ok_map _ (fun i => slice i (i + 76) b64)).
  - cbn [bind]. split; [reflexivity|]. unfold range_0_step76.
    split; [rewrite !length_map, length_seq; reflexivity|]. split.
    + apply Forall_forall. intros p Hp. apply in_map_iff in Hp.
      destruct Hp as [i [<- _]]. unfold slice.
      rewrite length_firstn. lia.
    + rewrite !length_map, length_seq. apply concat_slices.
  - intros i. rewrite (utf8_ok X s Hs). cbn [bind]. unfold b64_text.
    rewrite b64_text_ok. reflexivity.
Qed.

Lemma base64_mime_lines_witness :
  exists parts,
    base64_mime sample_externals (repeat 0x4E2D 30) = Ok (join [10] parts) /\
    List.length parts = 1%nat /\
    List.length (base64.b64encode (flat_map utf8_char (repeat 0x4E2D 30)))
    = 120%nat /\
    List.concat parts
    = firstn 76 (base64.b64encode (flat_map utf8_char (repeat 0x4E2D 30))).
Proof.
  destruct (base64_mime_lines sample_externals (repeat 0x4E2D 30) eq_refl)
    as [parts [E [L [_ C]]]].
  exists parts. split; [exact E|].
  assert (L1 : List.length parts = 1%nat) by (rewrite L; reflexivity).
  split; [exact L1|]. split; [reflexivity|].
  rewrite C, L1. reflexivity.
Defined.

(** X15. Every name that the batch runner takes from the registry is
    accepted by [transform_payloads], which returns one output per entry. *)
Theorem batch_names_are_registered (X : Externals) (transform : str)
    (json_data : list entry) :
  In transform (transform_names X) ->
  exists outputs,
    transform_payloads X json_data transform = Ok outputs /\
    List.length outputs = List.length json_data.
Proof.
  intros Hin.
  apply (Permutation_in _ (Permutation_sym (sorted_perm _))) in Hin.
  destruct (proj1 (dict_get_in_keys (TRANSFORMS X) transform) Hin) as [f Hf].
  unfold transform_payloads. rewrite Hf.
  change (generate
            (fun e => try_except (f (dict_get_default e (lit "payload") []))
                        (dict_get_default e (lit "payload") [])) json_data)
    with (generate (fun e => try_except (f (payload_of e)) (payload_of e))
            json_data).
  rewrite generate_try_except. eexists. split; [reflexivity|].
  apply length_map.
Qed.

Lemma batch_names_are_registered_witness :
  In (lit "rot13") (transform_names sample_externals) /\
  exists outputs,
    transform_payloads sample_externals
      [[(lit "payload", lit "abc")]; []] (lit "rot13") = Ok outputs /\
    List.length outputs = 2%nat.
Proof.
  assert (Hin : In (lit "rot13") (transform_names sample_externals)).
  { apply (Permutation_in _ (sorted_perm _)).
    assert (E : existsb (str_eqb (lit "rot13"))
                  (dict_keys (TRANSFORMS sample_externals)) = true)
      by (vm_compute; reflexivity).
    exact (proj1 (existsb_str_eqb (lit "rot13")
                    (dict_keys (TRANSFORMS sample_externals))) E). }
  split; [exact Hin|].
  exact (batch_names_are_registered sample_externals (lit "rot13")
           [[(lit "payload", lit "abc")]; []] Hin).
Defined.

Lemma encode_with_ascii (enc1 : Z -> option bytes) (e : errors)
    (subst : bytes) (s : str) :
  (forall c, is_ascii c = true -> enc1 c = Some [c]) ->
  forallb is_ascii s = true ->
  encode_with enc1 e subst s = Ok s.
Proof.
  intros H. induction s as [|c s IH]; cbn [forallb encode_with];
    [reflexivity|].
  rewrite andb_true_iff. intros [Hc Hs]. rewrite (H c Hc), (IH Hs).
  reflexivity.
Qed.

Lemma single_byte_ascii (c : Z) :
  is_ascii c = true ->
  utf8_1 c = Some [c] /\ latin1_1 c = Some [c] /\
  charmap_1 cp1251_table c = Some [c] /\ charmap_1 cp1252_table c = Some [c].
Proof.
  unfold is_ascii. rewrite andb_true_iff, Z.leb_le, Z.ltb_lt. intros H.
  unfold utf8_1, is_surrogate, utf8_char, latin1_1, charmap_1.
  repeat split; zcases; reflexivity.
Qed.

Lemma encode_code_pages (X : Externals) (s : str) (e : errors) :
  encode X s (lit "latin1") e = encode_with latin1_1 e [63] s /\
  encode X s (lit "cp1251") e
  = encode_with (charmap_1 cp1251_table) e [63] s /\
  encode X s (lit "cp1252") e
  = encode_with (charmap_1 cp1252_table) e [63] s.
Proof. repeat split. Qed.

Lemma encode_ascii_compatible (X : Externals) (enc : str) (e : errors)
    (s : str) :
  In enc ASCII_COMPATIBLE -> forallb is_ascii s = true ->
  encode X s enc e = Ok s.
Proof.
  intros Hin Hs. unfold ASCII_COMPATIBLE in Hin. cbn [In] in Hin.
  destruct (encode_code_pages X s e) as [E1 [E2 E3]].
  pose proof (proj1 (encode_names X s e)) as E0.
  destruct Hin as [H | [H | [H | [H | []]]]]; subst enc;
    [rewrite E0 | rewrite E1 | rewrite E2 | rewrite E3];
    apply encode_with_ascii; try exact Hs;
    intros c Hc; destruct (single_byte_ascii c Hc) as [A0 [A1 [A2 A3]]];
    assumption.
Qed.

(** X16. On ASCII text the generated transforms of [utf-8], [latin1],
    [cp1251] and [cp1252] agree: each renders the character codes
    themselves, as [hex_lower] and [base64] do. *)
Theorem byte_family_agrees_on_ascii (X : Externals) (enc out s : str) :
  In enc ASCII_COMPATIBLE -> In out OUTPUTS ->
  forallb is_ascii s = true ->
  (exists f, make_bytes_transform X enc out = Ok f /\ f s = represent out s) /\
  hex_lower X s = represent (lit "hex") s /\
  base64_std X s = represent (lit "base64") s.
Proof.
  intros Henc Hout Hs. split; [|split].
  - unfold OUTPUTS in Hout. cbn [In] in Hout.
    destruct Hout as [H | [H | [H | []]]]; subst out; eexists;
      (split; [reflexivity|]);
      [unfold f_hex | unfold f_b64 | unfold f_pct];
      rewrite (encode_ascii_compatible X enc replace_errors s Henc Hs);
      cbn [bind]; unfold hex_text, b64_text;
      [change (represent (lit "hex") s)
         with (decode_ascii (binascii.hexlify s));
       fold (hex_text s); rewrite hex_text_ok
      |change (represent (lit "base64") s)
         with (decode_ascii (base64.b64encode s));
       rewrite b64_text_ok
      |]; reflexivity.
  - unfold hex_lower, utf8.
    rewrite (encode_ascii_compatible X (lit "utf-8") strict s
               (or_introl eq_refl) Hs). reflexivity.
  - unfold base64_std, utf8.
    rewrite (encode_ascii_compatible X (lit "utf-8") strict s
               (or_introl eq_refl) Hs). reflexivity.
Qed.

Lemma byte_family_agrees_on_ascii_witness :
  exists f,
    make_bytes_transform sample_externals (lit "cp1251") (lit "base64") = Ok f
    /\ f (lit "abc") = Ok (lit "YWJj").
Proof.
  destruct (byte_family_agrees_on_ascii sample_externals (lit "cp1251")
              (lit "base64") (lit "abc")) as [[f [Hf Hv]] _].
  - right. right. left. reflexivity.
  - right. left. reflexivity.
  - reflexivity.
  - exists f. split; [exact Hf|]. rewrite Hv. reflexivity.
Defined.

Lemma upper_percent_pair (b : Z) :
  0 <= b < 256 -> upper (37 :: hex02 b) = 37 :: HEX02 b.
Proof.
  intros Hb.
  assert (H : str_eqb (upper (37 :: hex02 b)) (37 :: HEX02 b) = true)
    by (apply (byte_check
                 (fun b => str_eqb (upper (37 :: hex02 b)) (37 :: HEX02 b)));
        [vm_compute; reflexivity | exact Hb]).
  apply str_eqb_eq, H.
Qed.

(** X17. On the texts that UTF-8 encodes, the generated [utf8_base64]
    equals [base64] and the generated [utf8_percent] is
    [percent_bytes_lower] in upper case. *)
Theorem utf8_family_matches_base (X : Externals) (s : str) :
  encodable s = true ->
  f_b64 X (lit "utf-8") s = base64_std X s /\
  f_pct X (lit "utf-8") s = (t <- percent_bytes_lower X s ;; Ok (upper t)).
Proof.
  intros Hs. pose proof (utf8_bytes_range s Hs) as Hr.
  unfold f_b64, f_pct, base64_std, percent_bytes_lower.
  rewrite (proj1 (encode_names X s replace_errors)).
  rewrite (encode_utf8_scalar replace_errors s Hs), (utf8_ok X s Hs).
  cbn [bind]. unfold b64_text. rewrite b64_text_ok. cbn [try_except].
  split; [reflexivity|]. f_equal. rewrite !join_nil_flat_map.
  induction Hr as [|b bs Hb Hbs IH]; [reflexivity|].
  cbn [flat_map]. unfold upper in *. rewrite map_app, <- IH.
  fold (upper (37 :: hex02 b)). rewrite (upper_percent_pair b Hb).
  reflexivity.
Qed.

Lemma utf8_family_matches_base_witness :
  f_pct sample_externals (lit "utf-8") (lit "a" ++ [0x42F])
  = Ok (lit "%61%D0%AF") /\
  f_pct sample_externals (lit "utf-8") (lit "a" ++ [0x42F])
  = (t <- percent_bytes_lower sample_externals (lit "a" ++ [0x42F]) ;;
     Ok (upper t)).
Proof.
  split; [reflexivity|].
  apply (utf8_family_matches_base sample_externals (lit "a" ++ [0x42F])).
  reflexivity.
Defined.
